(** * agents/snowflake_agent.py: a shallow embedding

    The module queries a table of NVIDIA valuation metrics, asks an LLM for a
    chart specification, parses the answer into a dict, renders a normalised
    chart and asks the LLM for an analysis.

    Modelling choices, all visible in the definitions below:
    - a Python [str] is a Rocq [string], read as the text's UTF-8 bytes; the
      character classes of [strip], [upper] and [lower] are the ASCII ones
      (on ASCII text they agree with Python's);
    - the [specs] dict is a [gmap string string];
    - a number of a DataFrame is a finite rational ([Q], exact arithmetic),
      a missing number (NaN) is [None]; the float64 arithmetic of the
      normalisation, with its infinities, overflow and rounding, is
      modelled apart ([normalize_float64]);
    - pandas, matplotlib, the warehouse and the LLM providers are external:
      what the module only passes through them is a field of the class
      [External]. *)

From Stdlib Require Import Qcanon.
From stdpp Require Import numbers.
From Stdlib Require Import QArith Qminmax Lqa.
From stdpp Require Import gmap strings list fin_maps.

Open Scope string_scope.

(** ** Python string operations used by the module *)

Module PyStr.

Definition newline : Ascii.ascii := Ascii.ascii_of_nat 10.
Definition colon : Ascii.ascii := Ascii.ascii_of_nat 58.

(** [c.isspace()] on ASCII: TAB..CR, FS..US and the space. *)
Definition is_space (c : Ascii.ascii) : bool :=
  let n := Ascii.nat_of_ascii c in
  ((9 <=? n)%nat && (n <=? 13)%nat) || ((28 <=? n)%nat && (n <=? 32)%nat).

Fixpoint lstrip (s : string) : string :=
  match s with
  | String c s' => if is_space c then lstrip s' else s
  | EmptyString => EmptyString
  end.

Fixpoint rstrip (s : string) : string :=
  match s with
  | EmptyString => EmptyString
  | String c s' =>
      match rstrip s' with
      | EmptyString => if is_space c then EmptyString else String c EmptyString
      | r => String c r
      end
  end.

(** [s.strip()] *)
Definition strip (s : string) : string := rstrip (lstrip s).

(** The ASCII letters [a]..[z] and [A]..[Z]. *)
Definition is_lower (c : Ascii.ascii) : bool :=
  let n := Ascii.nat_of_ascii c in (97 <=? n)%nat && (n <=? 122)%nat.

Definition is_upper (c : Ascii.ascii) : bool :=
  let n := Ascii.nat_of_ascii c in (65 <=? n)%nat && (n <=? 90)%nat.

Definition upper_char (c : Ascii.ascii) : Ascii.ascii :=
  if is_lower c then Ascii.ascii_of_nat (Ascii.nat_of_ascii c - 32) else c.

Definition lower_char (c : Ascii.ascii) : Ascii.ascii :=
  if is_upper c then Ascii.ascii_of_nat (Ascii.nat_of_ascii c + 32) else c.

Fixpoint map_chars (f : Ascii.ascii → Ascii.ascii) (s : string) : string :=
  match s with
  | EmptyString => EmptyString
  | String c s' => String (f c) (map_chars f s')
  end.

(** [s.upper()] and [s.lower()] *)
Definition upper : string → string := map_chars upper_char.
Definition lower : string → string := map_chars lower_char.

(** [needle in hay] *)
Fixpoint contains (needle hay : string) : bool :=
  String.prefix needle hay ||
  match hay with
  | EmptyString => false
  | String _ hay' => contains needle hay'
  end.

(** [s.split(sep)] for a one-character separator: never the empty list. *)
Fixpoint split (sep : Ascii.ascii) (s : string) : list string :=
  match s with
  | EmptyString => [EmptyString]
  | String c s' =>
      if Ascii.eqb c sep then EmptyString :: split sep s'
      else match split sep s' with
           | w :: ws => String c w :: ws
           | [] => [String c EmptyString]
           end
  end.

(** [s.split(sep, 1)] when [sep] occurs in [s]: the text before the first
    occurrence and the text after it; [None] when [sep] does not occur. *)
Fixpoint split_first (sep : Ascii.ascii) (s : string) : option (string * string) :=
  match s with
  | EmptyString => None
  | String c s' =>
      if Ascii.eqb c sep then Some (EmptyString, s')
      else match split_first sep s' with
           | Some (k, v) => Some (String c k, v)
           | None => None
           end
  end.

Fixpoint has_char (c : Ascii.ascii) (s : string) : bool :=
  match s with
  | EmptyString => false
  | String d s' => Ascii.eqb d c || has_char c s'
  end.

Definition is_letter (c : Ascii.ascii) : bool := is_upper c || is_lower c.

Fixpoint title_from (prev_cased : bool) (s : string) : string :=
  match s with
  | EmptyString => EmptyString
  | String c s' =>
      String (if is_letter c
              then if prev_cased then lower_char c else upper_char c
              else c)
             (title_from (is_letter c) s')
  end.

(** [s.title()] *)
Definition title : string → string := title_from false.

(** [s.replace('_', ' ')] *)
Definition underscores_to_spaces : string → string :=
  map_chars (λ c, if Ascii.eqb c (Ascii.ascii_of_nat 95)
                  then Ascii.ascii_of_nat 32 else c).

End PyStr.

(** ** SpecAdvisor: the response parser of [get_graph_specs_from_llm] *)

(** One turn of the loop over the response's lines. *)
Definition parse_line (specs : gmap string string) (line : string)
  : gmap string string :=
  if PyStr.contains ":" line then
    match PyStr.split_first PyStr.colon line with
    | Some (key, value) => <[PyStr.strip key := PyStr.strip value]> specs
    | None => specs
    end
  else specs.

(** [specs = {}; for line in response_text.split("\n"): ...] *)
Definition parse_specs (response_text : string) : gmap string string :=
  fold_left parse_line (PyStr.split PyStr.newline response_text) ∅.

(** ** LLM client selection: [initialize_llm] *)

Inductive provider : Type :=
  | ChatAnthropic
  | ChatGoogleGenerativeAI
  | ChatOpenAI
  | ChatGroq.

(** The keyword arguments of the client constructors; the API key is read
    from the environment variable named by [api_key_env]. *)
Record client : Type := Client {
  provider_of : provider;
  model : string;
  temperature : Z;
  api_key_env : string
}.

Definition default_model : string := "claude-3-haiku-20240307".

Definition initialize_llm (model_name : string) : client :=
  if PyStr.contains "claude" model_name then
    Client ChatAnthropic model_name 0 "ANTHROPIC_API_KEY"
  else if PyStr.contains "gemini" model_name then
    Client ChatGoogleGenerativeAI model_name 0 "GEMINI_API_KEY"
  else if PyStr.contains "deepseek" model_name then
    Client ChatOpenAI model_name 0 "DEEP_SEEK_API_KEY"
  else if PyStr.contains "grok" model_name then
    Client ChatGroq model_name 0 "GROK_API_KEY"
  else
    Client ChatAnthropic "claude-3-haiku-20240307" 0 "ANTHROPIC_API_KEY".

(** ** The DataFrame *)

(** A column by dtype: float64, its finite numbers with NaN as [None] (the
    infinities are not represented); datetime64 (nanoseconds
    since the epoch) with NaT as [None]; object, here text with [None] for a
    missing cell. *)
Inductive column : Type :=
  | FloatCol (vals : list (option Q))
  | DateCol (vals : list (option Z))
  | TextCol (vals : list (option string)).

(** Columns in order, each under its label. *)
Definition DataFrame : Type := list (string * column).

Definition col_len (c : column) : nat :=
  match c with
  | FloatCol l => length l
  | DateCol l => length l
  | TextCol l => length l
  end.

Definition nrows (df : DataFrame) : nat :=
  match df with
  | [] => 0
  | (_, c) :: _ => col_len c
  end.

(** [df.empty]: some axis has length 0. *)
Definition df_empty (df : DataFrame) : bool :=
  match df with
  | [] => true
  | _ => Nat.eqb (nrows df) 0
  end.

(** [df.columns] *)
Definition columns (df : DataFrame) : list string := map fst df.

(** ['DATE' in df.columns] and the like *)
Definition has_column (name : string) (df : DataFrame) : bool :=
  existsb (String.eqb name) (columns df).

(** [df[name]]; labels are taken to be distinct, as the column names of a
    table are, and the first column under the label is the one read. *)
Fixpoint get_column (name : string) (df : DataFrame) : option column :=
  match df with
  | [] => None
  | (n, c) :: df' => if String.eqb name n then Some c else get_column name df'
  end.

(** [df[name] = c] for a label that is present *)
Definition set_column (name : string) (c : column) (df : DataFrame) : DataFrame :=
  map (λ nc, if String.eqb name (fst nc) then (fst nc, c) else nc) df.

(** [df.columns = df.columns.str.upper().str.strip()] *)
Definition normalize_column_names (df : DataFrame) : DataFrame :=
  map (λ nc, (PyStr.strip (PyStr.upper (fst nc)), snd nc)) df.

(** ** Min-max normalisation of a float column *)

(** The numbers of a column, NaN skipped as [Series.min] and [Series.max] do. *)
Definition present (l : list (option Q)) : list Q := omap id l.

(** [df[col].min()]: NaN when the column has no number. *)
Definition col_min (l : list (option Q)) : option Q :=
  match present l with
  | [] => None
  | x :: xs => Some (fold_left Qmin xs x)
  end.

(** [df[col].max()] *)
Definition col_max (l : list (option Q)) : option Q :=
  match present l with
  | [] => None
  | x :: xs => Some (fold_left Qmax xs x)
  end.

(** [max_val - min_val != 0]; with a NaN operand the difference is NaN and
    the comparison is true. *)
Definition range_nonzero (min_val max_val : option Q) : bool :=
  match min_val, max_val with
  | Some m, Some M => negb (Qeq_bool (M - m) 0)
  | _, _ => true
  end.

(** One entry of [(df[col] - min_val) / (max_val - min_val)] *)
Definition scale (min_val max_val : option Q) (x : option Q) : option Q :=
  match x, min_val, max_val with
  | Some x, Some m, Some M => Some ((x - m) / (M - m))%Q
  | _, _, _ => None
  end.

(** The body of the normalisation loop for a float column, in exact
    arithmetic on finite numbers; [normalize_float64] has the float64
    arithmetic. *)
Definition normalize_float (l : list (option Q)) : list (option Q) :=
  let min_val := col_min l in
  let max_val := col_max l in
  if range_nonzero min_val max_val then map (scale min_val max_val) l
  else l.

(** ** The chart handed to matplotlib *)

Inductive plot_kind : Type :=
  | StackedArea   (* plt.stackplot *)
  | LinePlot.     (* one plt.plot per column *)

(** What the renderer decides: the drawing path, the x values, the labelled
    series, the title and the axis labels. Colours, sizes, grid, legend and
    tick settings are constants of the source and are left out. *)
Record chart : Type := Chart {
  kind : plot_kind;
  x_values : list (option string);
  series : list (string * column);
  chart_title : string;
  x_label : string;
  y_label : string
}.

(** ** External collaborators *)

(** The answer of [llm.invoke(prompt)], client construction included. *)
Record response : Type := Response {
  truthy : bool;               (* [bool(response)] *)
  content : option string;     (* [response.content] when the attribute exists;
                                  a text: a list of blocks is not represented *)
  response_str : string        (* [str(response)] *)
}.

Inductive llm_result : Type :=
  | LLMRaises (message : string)
  | LLMReturns (r : response).

Class External : Type := {
  (** [pd.to_datetime(col, errors='coerce')]: unparseable entries become NaT *)
  to_datetime_coerce : column → list (option Z);
  (** [pd.to_datetime(col)]: [None] when it raises *)
  to_datetime_strict : column → option (list (option Z));
  (** [.dt.strftime('%b %d, %Y')] on one timestamp *)
  strftime : Z → string;
  (** the four statements of the normalisation loop on a column that is not
      float64: [None] when pandas raises *)
  normalize_other : column → option column;
  (** matplotlib draws and saves the chart without raising *)
  draws : chart → bool;
  (** the LLM behind a client *)
  invoke : client → string → llm_result;
  (** [str(data.to_dict(orient="list"))],
      [str(df.to_dict(orient="records"))] and [str(specs)] *)
  str_columns : DataFrame → string;
  str_records : DataFrame → string;
  str_specs : gmap string string → string;
  (** [os.path.exists] when the analysis checks the chart file *)
  path_exists : string → bool
}.

(** ** Calls that leave the process *)

Inductive event : Type :=
  | AskLLM (c : client) (prompt : string)
  | SaveFig (path : string) (ch : chart).

(** A computation returns a value and the calls it made, oldest first.
    Standard output is not part of the model. *)
Definition Run (A : Type) : Type := (list event * A)%type.

#[global] Instance Run_ret : MRet Run := λ A a, ([], a).
#[global] Instance Run_bind : MBind Run := λ A B k m,
  let '(t1, a) := m in
  let '(t2, b) := k a in
  ((t1 ++ t2)%list, b).

Definition emit (e : event) : Run unit := ([e], tt).
Definition trace {A} (m : Run A) : list event := fst m.
Definition value {A} (m : Run A) : A := snd m.

Section Pipeline.
Context {ext : External}.

(** *** SpecAdvisor: [get_graph_specs_from_llm] *)

Definition graph_specs_prompt (data : DataFrame) : string :=
  "
        Based on the following NVIDIA financial data:
        " ++ str_columns data ++ "
        Generate a graph specification in this format:
        - Title: [Graph title]
        - Type: [line/bar/scatter]
        - X-axis: [label and settings]
        - Y-axis: [label and settings]
        - Colors: [color scheme]
        - Additional elements: [grid, legend position, etc.]

        Focus on making the graph visually informative and easy to interpret.
        ".

(** Any exception, and a response that is falsy or has no content, gives
    the empty dict. *)
Definition get_graph_specs_from_llm (data : DataFrame) (model_name : string)
  : Run (gmap string string) :=
  let prompt := graph_specs_prompt data in
  let llm := initialize_llm model_name in
  emit (AskLLM llm prompt);;
  match invoke llm prompt with
  | LLMRaises _ => mret ∅
  | LLMReturns r =>
      if negb (truthy r) then mret ∅
      else match content r with
           | None => mret ∅
           | Some response_text => mret (parse_specs response_text)
           end
  end.

(** *** ChartRenderer: [create_graph_from_llm_specs] *)

(** The loop over [df_normalized.columns]; [None] when a step raises. *)
Fixpoint normalize_columns (df : DataFrame) : option DataFrame :=
  match df with
  | [] => Some []
  | (name, c) :: df' =>
      c' ← (if String.eqb name "DATE" then Some c
            else match c with
                 | FloatCol l => Some (FloatCol (normalize_float l))
                 | _ => normalize_other c
                 end);
      rest ← normalize_columns df';
      Some ((name, c') :: rest)
  end.

(** [specs.get(key, default)] *)
Definition get_default (specs : gmap string string) (key fallback : string)
  : string :=
  match specs !! key with
  | Some v => v
  | None => fallback
  end.

(** [specs.get("Type", "stacked").lower()] *)
Definition graph_type (specs : gmap string string) : string :=
  PyStr.lower (get_default specs "Type" "stacked").

Definition plot_path (specs : gmap string string) : plot_kind :=
  if String.eqb (graph_type specs) "stacked" then StackedArea else LinePlot.

Definition title_of (specs : gmap string string) : string :=
  get_default specs "Title" "NVIDIA Financial Metrics" ++ " (Normalized)".

Definition x_label_of (specs : gmap string string) : string :=
  get_default specs "X-axis" "Date".

Definition y_label_of (specs : gmap string string) : string :=
  get_default specs "Y-axis" "Normalized Value (0-1 scale)".

(** [col.replace('_', ' ').title()] *)
Definition series_label (col : string) : string :=
  PyStr.title (PyStr.underscores_to_spaces col).

Definition chart_file_path : string := "llm_generated_graph.png".

(** The chart the renderer draws, [None] when an exception is caught
    before drawing. *)
Definition chart_of (data : DataFrame) (specs : gmap string string)
  : option chart :=
  if negb (has_column "DATE" data) then None
  else
    df_normalized ← normalize_columns data;
    date ← get_column "DATE" df_normalized;
    stamps ← to_datetime_strict date;
    Some {| kind := plot_path specs;
            x_values := map (fmap strftime) stamps;
            series := map (λ nc, (series_label (fst nc), snd nc))
                          (tail df_normalized);
            chart_title := title_of specs;
            x_label := x_label_of specs;
            y_label := y_label_of specs |}.

(** The returned path, [None] for the [None] of the [except] branch. *)
Definition create_graph_from_llm_specs
    (data : DataFrame) (specs : gmap string string) : Run (option string) :=
  match chart_of data specs with
  | None => mret None
  | Some ch =>
      if draws ch then
        emit (SaveFig chart_file_path ch);; mret (Some chart_file_path)
      else mret None
  end.

(** *** DataFetcher and orchestration:
    [get_valuation_summary_with_llm_graph] *)

(** The dict returned by the top-level functions: the keys of the success
    branch, or the [error] of the failure branch. *)
Inductive summary_result : Type :=
  | SummarySuccess (summary : DataFrame) (chart_path : string)
                   (graph_specs : gmap string string)
  | SummaryFailed (error : string).

Definition summary_status (r : summary_result) : string :=
  match r with
  | SummarySuccess _ _ _ => "success"
  | SummaryFailed _ => "failed"
  end.

Definition err_no_data : string :=
  "No data returned from Snowflake. Ensure the table contains data.".
Definition err_date_unparsed : string :=
  "The 'DATE' column could not be parsed as datetime.".
Definition err_date_missing : string :=
  "The 'DATE' column is missing from the data.".
Definition err_no_graph : string :=
  "Failed to create graph from LLM specifications.".

(** The spec used when the LLM gave none. *)
Definition default_graph_specs : gmap string string :=
  <["Title" := "Default Graph"]>
  (<["Type" := "line"]>
  (<["X-axis" := "Date"]>
  (<["Y-axis" := "Value"]>
  (<["Additional elements" := "grid, legend"]> ∅)))).

(** [df['DATE'].isnull().all()] *)
Definition all_null (stamps : list (option Z)) : bool :=
  forallb (λ d, match d with None => true | Some _ => false end) stamps.

(** The body of the function from the statement after [pd.read_sql], whose
    result is [query_result]; a query that raises, and a result in which
    two labels normalise to DATE, are not represented. *)
Definition get_valuation_summary_with_llm_graph
    (query_result : DataFrame) (model_name : string) : Run summary_result :=
  let df := normalize_column_names query_result in
  if df_empty df then mret (SummaryFailed err_no_data)
  else
    match get_column "DATE" df with
    | None => mret (SummaryFailed err_date_missing)
    | Some date =>
        let stamps := to_datetime_coerce date in
        let df := set_column "DATE" (DateCol stamps) df in
        if all_null stamps then mret (SummaryFailed err_date_unparsed)
        else
          llm_specs ← get_graph_specs_from_llm df model_name;
          let graph_specs :=
            if bool_decide (llm_specs = ∅) then default_graph_specs
            else llm_specs in
          chart_file ← create_graph_from_llm_specs df graph_specs;
          match chart_file with
          | None => mret (SummaryFailed err_no_graph)
          | Some path => mret (SummarySuccess df path graph_specs)
          end
    end.

(** *** InsightNarrator: [get_ai_analysis_with_graph] *)

Inductive analysis_result : Type :=
  | AnalysisSuccess (analysis : string) (chart_path : string)
                    (summary : DataFrame) (graph_specs : gmap string string)
  | AnalysisFailed (error : string).

Definition analysis_status (r : analysis_result) : string :=
  match r with
  | AnalysisSuccess _ _ _ _ => "success"
  | AnalysisFailed _ => "failed"
  end.

Definition analysis_prompt (summary : DataFrame)
    (graph_specs : gmap string string) : string :=
  "
        Analyze the following NVIDIA financial data and the generated graph:
        Data Summary:
        " ++ str_records summary ++ "
        
        Graph Specifications:
        " ++ str_specs graph_specs ++ "
        
        Provide insights based on the data and the graph. Highlight key trends, patterns, and any significant observations.
        ".

Definition get_ai_analysis_with_graph
    (query_result : DataFrame) (prompt model_name : string)
  : Run analysis_result :=
  result ← get_valuation_summary_with_llm_graph query_result model_name;
  match result with
  | SummaryFailed error => mret (AnalysisFailed error)
  | SummarySuccess summary chart_path graph_specs =>
      let llm_prompt := analysis_prompt summary graph_specs in
      let llm := initialize_llm model_name in
      emit (AskLLM llm llm_prompt);;
      match invoke llm llm_prompt with
      | LLMRaises message =>
          mret (AnalysisFailed ("Analysis unavailable - " ++ message))
      | LLMReturns r =>
          let analysis :=
            match content r with
            | Some text => text
            | None => response_str r
            end in
          let chart_path :=
            if negb (path_exists chart_path) then
              if path_exists "llm_generated_graph.png"
              then "llm_generated_graph.png" else chart_path
            else chart_path in
          mret (AnalysisSuccess analysis chart_path summary graph_specs)
      end
  end.

End Pipeline.

(** ** A reference environment

    A deterministic instance of the external collaborators, used to run the
    pipeline on concrete tables: text never parses as a date, a float is
    read as its integer part, every non-float column makes the
    normalisation loop raise, drawing succeeds, the LLM is unreachable and
    the chart file is found. *)

Definition offline_external : External := {|
  to_datetime_coerce c :=
    match c with
    | DateCol l => l
    | FloatCol l => map (fmap (λ q : Q, (Qnum q / Zpos (Qden q))%Z)) l
    | TextCol l => map (λ _, None) l
    end;
  to_datetime_strict c :=
    match c with
    | DateCol l => Some l
    | _ => None
    end;
  strftime _ := "Jan 01, 1970";
  normalize_other _ := None;
  draws _ := true;
  invoke _ _ := LLMRaises "connection refused";
  str_columns _ := "{}";
  str_records _ := "[]";
  str_specs _ := "{}";
  path_exists _ := true
|}.

(** The same environment with an LLM that answers [text] to every prompt. *)
Definition answering_external (text : string) : External := {|
  to_datetime_coerce := @to_datetime_coerce offline_external;
  to_datetime_strict := @to_datetime_strict offline_external;
  strftime := @strftime offline_external;
  normalize_other := @normalize_other offline_external;
  draws := @draws offline_external;
  invoke _ _ := LLMReturns (Response true (Some text) text);
  str_columns := @str_columns offline_external;
  str_records := @str_records offline_external;
  str_specs := @str_specs offline_external;
  path_exists := @path_exists offline_external
|}.

(** Two dated rows of two metrics; [PS_RATIO] is constant. *)
Definition sample_table : DataFrame :=
  [ ("date", DateCol [Some 0%Z; Some 86400000000000%Z]);
    (" pe_ratio ", FloatCol [Some (50 # 1); Some (60 # 1)]);
    ("ps_ratio", FloatCol [Some (5 # 1); Some (5 # 1)]) ].

(** The providers in the order in which the selector tries them, each with
    the substring that selects it and the environment variable of its key. *)
Definition dispatch_order : list (string * provider * string) :=
  [ ("claude", ChatAnthropic, "ANTHROPIC_API_KEY");
    ("gemini", ChatGoogleGenerativeAI, "GEMINI_API_KEY");
    ("deepseek", ChatOpenAI, "DEEP_SEEK_API_KEY");
    ("grok", ChatGroq, "GROK_API_KEY") ].

(** The first entry of [dispatch_order] whose substring occurs in the name,
    with the model of the [else] branch when there is none. *)
Definition first_match (model_name : string) : client :=
  match find (λ e, PyStr.contains (fst (fst e)) model_name) dispatch_order with
  | Some (_, p, env) => Client p model_name 0 env
  | None => Client ChatAnthropic default_model 0 "ANTHROPIC_API_KEY"
  end.

(** [needle] occurs in [hay]: the meaning of Python's [needle in hay]. *)
Definition substring_of (needle hay : string) : Prop :=
  ∃ before after, hay = before ++ needle ++ after.

(** ** The normalisation in float64 arithmetic

    The statements of lines 123-126 on a column of float64 values, with the
    infinities, NaN, overflow and rounding that exact rationals do not
    have. *)

(** A float64: a finite number, an infinity or NaN. The sign of a zero,
    which no comparison of the module sees, is not kept. *)
Inductive f64 : Type :=
  | Fin (q : Qc)
  | PInf
  | NInf
  | NaN.

(** The largest finite float64, and a bound from which every exact result
    overflows to an infinity. *)
Definition f64_max : Qc := Q2Qc ((2 ^ 1024 - 2 ^ 971) # 1).
Definition f64_overflow : Qc := Q2Qc ((2 ^ 1024) # 1).

(** [a <= b]; false as soon as one side is NaN. *)
Definition f64_leb (a b : f64) : bool :=
  match a, b with
  | NaN, _ | _, NaN => false
  | NInf, _ | _, PInf => true
  | Fin x, Fin y => bool_decide (x ≤ y)%Qc
  | _, _ => false
  end.

(** Rounding of an exact result to float64, by the properties of IEEE 754
    rounding to nearest that the normalisation depends on: it is monotone,
    exact at 0 and 1, finite inside the float64 range and infinite from the
    overflow bound on. *)
Class Rounding : Type := {
  round : Qc → f64;
  round_mono : ∀ p q, (p ≤ q)%Qc → f64_leb (round p) (round q) = true;
  round_zero : round 0%Qc = Fin 0%Qc;
  round_one : round 1%Qc = Fin 1%Qc;
  round_in_range :
    ∀ q, (- f64_max ≤ q)%Qc → (q ≤ f64_max)%Qc → ∃ z, round q = Fin z;
  round_overflow : ∀ q, (f64_overflow ≤ q)%Qc → round q = PInf;
  round_overflow_neg : ∀ q, (q ≤ - f64_overflow)%Qc → round q = NInf
}.

Section Float64.
Context {rnd : Rounding}.

(** [a - b] *)
Definition f64_sub (a b : f64) : f64 :=
  match a, b with
  | NaN, _ | _, NaN => NaN
  | Fin x, Fin y => round (x - y)%Qc
  | PInf, PInf | NInf, NInf => NaN
  | PInf, _ | _, NInf => PInf
  | NInf, _ | _, PInf => NInf
  end.

(** [a / b]; numpy divides by zero without raising. *)
Definition f64_div (a b : f64) : f64 :=
  match a, b with
  | NaN, _ | _, NaN => NaN
  | Fin x, Fin y =>
      if decide (y = 0%Qc) then
        if decide (x = 0%Qc) then NaN
        else if decide (0 < x)%Qc then PInf else NInf
      else round (x / y)%Qc
  | Fin _, _ => Fin 0%Qc
  | _, PInf | _, NInf => NaN
  | PInf, Fin y => if decide (0 ≤ y)%Qc then PInf else NInf
  | NInf, Fin y => if decide (0 ≤ y)%Qc then NInf else PInf
  end.

(** [r != 0]: true for NaN and for the infinities. *)
Definition f64_ne_zero (r : f64) : bool :=
  match r with
  | Fin q => negb (bool_decide (q = 0%Qc))
  | _ => true
  end.

Definition f64_is_nan (a : f64) : bool :=
  match a with
  | NaN => true
  | _ => false
  end.

Definition f64_min (a b : f64) : f64 := if f64_leb a b then a else b.
Definition f64_max_of (a b : f64) : f64 := if f64_leb a b then b else a.

(** The entries that [Series.min] and [Series.max] look at: NaN skipped. *)
Definition numbers (l : list f64) : list f64 :=
  filter (λ a, f64_is_nan a = false) l.

(** [df[col].min()] and [df[col].max()]: NaN when the column has no
    number. *)
Definition col_min64 (l : list f64) : f64 :=
  match numbers l with
  | [] => NaN
  | x :: xs => fold_left f64_min xs x
  end.

Definition col_max64 (l : list f64) : f64 :=
  match numbers l with
  | [] => NaN
  | x :: xs => fold_left f64_max_of xs x
  end.

(** The body of the normalisation loop for one column:
    [if max_val - min_val != 0: col = (col - min_val) / (max_val - min_val)] *)
Definition normalize_float64 (l : list f64) : list f64 :=
  let min_val := col_min64 l in
  let max_val := col_max64 l in
  if f64_ne_zero (f64_sub max_val min_val)
  then map (λ x, f64_div (f64_sub x min_val) (f64_sub max_val min_val)) l
  else l.

End Float64.

(** The rounding that is exact inside the float64 range and infinite beyond
    it: it agrees with float64 on every operation whose exact result is a
    float64, or is at least the overflow bound in magnitude. *)
Definition round_to_range (q : Qc) : f64 :=
  if decide (f64_max < q)%Qc then PInf
  else if decide (q < - f64_max)%Qc then NInf
  else Fin q.

(** 2^1023, a float64 whose double overflows. *)
Definition f64_huge : Qc := Q2Qc (inject_Z (2 ^ 1023)).

(** Whole numbers as float64. *)
Definition f64_of_Z (n : Z) : f64 := Fin (Q2Qc (inject_Z n)).

Definition exact_rounding : Rounding.
Proof.
  refine {| round := round_to_range |}.
  - intros p q Hpq. unfold round_to_range.
    destruct (decide (f64_max < p)%Qc) as [Hp|Hp].
    { rewrite decide_True; [done|]. by eapply Qclt_le_trans. }
    destruct (decide (p < - f64_max)%Qc) as [Hp'|Hp'].
    { by repeat case_decide. }
    destruct (decide (f64_max < q)%Qc) as [Hq|Hq]; [done|].
    destruct (decide (q < - f64_max)%Qc) as [Hq'|Hq'].
    { destruct Hp'. by eapply Qcle_lt_trans. }
    simpl. by apply bool_decide_eq_true.
  - unfold round_to_range. by repeat case_decide.
  - unfold round_to_range. by repeat case_decide.
  - intros q H1 H2. unfold round_to_range.
    rewrite decide_False by (by apply Qcle_not_lt).
    rewrite decide_False by (by apply Qcle_not_lt). by eexists.
  - intros q H. unfold round_to_range. rewrite decide_True; [done|].
    eapply Qclt_le_trans; [|exact H]. by vm_compute.
  - intros q H. unfold round_to_range.
    assert (q < - f64_max)%Qc as H'
      by (eapply Qcle_lt_trans; [exact H | by vm_compute]).
    rewrite decide_False, decide_True; [done | done |].
    apply Qcle_not_lt. eapply Qcle_trans; [apply Qclt_le_weak, H'|].
    by vm_compute.
Defined.

(** ** The bar chart: [get_valuation_summary] *)

(** A cell of a column of any dtype. *)
Inductive cell : Type :=
  | FloatCell (v : option Q)
  | DateCell (v : option Z)
  | TextCell (v : option string).

Definition cells (c : column) : list cell :=
  match c with
  | FloatCol l => map FloatCell l
  | DateCol l => map DateCell l
  | TextCol l => map TextCell l
  end.

(** NaN, NaT and None *)
Definition is_missing (x : cell) : bool :=
  match x with
  | FloatCell None | DateCell None | TextCell None => true
  | _ => false
  end.

(** One entry of [df["DATE"] == date]: a missing value equals nothing, not
    even itself. *)
Definition cell_eqb (x y : cell) : bool :=
  match x, y with
  | FloatCell (Some a), FloatCell (Some b) => Qeq_bool a b
  | DateCell (Some a), DateCell (Some b) => Z.eqb a b
  | TextCell (Some a), TextCell (Some b) => String.eqb a b
  | _, _ => false
  end.

(** Two cells count as one value for [unique]: equal, or both missing. *)
Definition same_value (x y : cell) : bool :=
  cell_eqb x y || (is_missing x && is_missing y).

(** [Series.unique()]: the values in the order of their first appearance. *)
Fixpoint unique (l : list cell) : list cell :=
  match l with
  | [] => []
  | x :: l' => x :: filter (λ y, negb (same_value x y) = true) (unique l')
  end.

(** The position of the first row selected by a mask, if any. *)
Fixpoint first_index (p : cell → bool) (l : list cell) : option nat :=
  match l with
  | [] => None
  | x :: l' => if p x then Some 0%nat else S <$> first_index p l'
  end.

(** [df.iloc[i, 1:]]: row [i] without its first column. *)
Definition row_tail (i : nat) (df : DataFrame) : list cell :=
  omap (λ nc, cells (snd nc) !! i) (tail df).

(** The number of rows of a column. *)
Definition nrows_of (c : column) : nat := length (cells c).

(** One call of [plt.bar(x, height, label=...)]. *)
Record bar : Type := Bar {
  bar_x : list string;
  bar_height : list cell;
  bar_label : string
}.

(** What the function passes through pandas and matplotlib. *)
Class BarExternal : Type := {
  (** [str(date)] for a value of the DATE column *)
  str_date : cell → string;
  (** the message of the exception of [plt.bar], if it raises *)
  bar_raises : bar → option string;
  (** the message of the [IndexError] of [iloc[0, 1:]] on a frame without
      rows *)
  index_error : string;
  (** labelling, [plt.savefig] into the buffer and base64: the encoded
      image, or the message of the exception *)
  encode_png : list bar → string + string;
  (** [df.to_string()] *)
  to_string : DataFrame → string
}.

Inductive valuation_result : Type :=
  | ValuationSuccess (chart : string) (summary : string)
  | ValuationFailed (error : string).

Definition valuation_status (r : valuation_result) : string :=
  match r with
  | ValuationSuccess _ _ => "success"
  | ValuationFailed _ => "failed"
  end.

(** [str(KeyError('DATE'))] *)
Definition err_key_date : string := "'DATE'".

Section BarChart.
Context {bext : BarExternal}.

(** The loop over [df["DATE"].unique()]: the bars drawn, and the message of
    the exception that stopped the loop, if one did. *)
Fixpoint draw_bars (df : DataFrame) (date_col : list cell) (dates : list cell)
  : list bar * option string :=
  match dates with
  | [] => ([], None)
  | date :: rest =>
      match first_index (cell_eqb date) date_col with
      | None => ([], Some index_error)
      | Some i =>
          let b := Bar (tail (columns df)) (row_tail i df) (str_date date) in
          match bar_raises b with
          | Some message => ([], Some message)
          | None =>
              let '(bars, stopped) := draw_bars df date_col rest in
              (b :: bars, stopped)
          end
      end
  end.

(** The body of the function from the statement after [pd.read_sql], whose
    result is [query_result]; the argument [query] is not used. The bars
    drawn are returned beside the dict. *)
Definition get_valuation_summary
    (query_result : DataFrame) (query : option string)
  : list bar * valuation_result :=
  let df := normalize_column_names query_result in
  if df_empty df then ([], ValuationFailed err_no_data)
  else
    match get_column "DATE" df with
    | None => ([], ValuationFailed err_key_date)
    | Some date_col =>
        let '(bars, stopped) :=
          draw_bars df (cells date_col) (unique (cells date_col)) in
        match stopped with
        | Some message => (bars, ValuationFailed message)
        | None =>
            match encode_png bars with
            | inl img_str => (bars, ValuationSuccess img_str (to_string df))
            | inr message => (bars, ValuationFailed message)
            end
        end
    end.

End BarChart.

(** A plotting environment for the examples: nothing raises. *)
Definition plain_bars : BarExternal := {|
  str_date _ := "1970-01-01";
  bar_raises _ := None;
  index_error := "single positional indexer is out-of-bounds";
  encode_png _ := inl "iVBORw0KGgo=";
  to_string _ := "Empty DataFrame"
|}.

(** ** The script run by [if __name__ == "__main__"] *)

(** The script prints [analysis["analysis"]]; the dict of a failed analysis
    has no such key, and the lookup raises [KeyError]. *)
Inductive script_outcome : Type :=
  | Printed (text : string)
  | RaisedKeyError (key : string).

Definition main_prompt : string :=
  "Analyze NVIDIA financial metrics using the nvidia_financial_metrics tool.Provide a brief summary of key insights.".

Definition main `{ext : External} (query_result : DataFrame)
  : Run script_outcome :=
  analysis ← get_ai_analysis_with_graph query_result main_prompt
               "gemini-2.0-flash";
  match analysis with
  | AnalysisSuccess text _ _ _ => mret (Printed text)
  | AnalysisFailed _ => mret (RaisedKeyError "analysis")
  end.

(** The character that starts each line of the format requested in the
    prompt of [get_graph_specs_from_llm]. *)
Definition dash : Ascii.ascii := Ascii.ascii_of_nat 45.

(** [evaluated t k] runs [k] on the value of the closed term [t : option _]. *)
Ltac evaluated t k :=
  let v := eval vm_compute in t in
  match v with
  | Some ?d => k d
  end.

(** * Properties *)

(** ** Strings *)

Module PyStrFacts.
Import PyStr.

Lemma prefix_app (n h : string) :
  String.prefix n h = true ↔ ∃ b, h = n ++ b.
Proof.
  revert h. induction n as [|c n IH]; intros h; simpl.
  - split; [intros _; exists h; by destruct h | by destruct h].
  - destruct h as [|d h]; simpl.
    + split; [done | intros [b Hb]; discriminate].
    + destruct (Ascii.ascii_dec c d) as [->|Hne].
      * rewrite IH. split; intros [b Hb]; exists b; [by rewrite Hb | by inversion Hb].
      * split; [done | intros [b Hb]; inversion Hb; congruence].
Qed.

Lemma contains_spec (n h : string) :
  contains n h = true ↔ substring_of n h.
Proof.
  unfold substring_of. split.
  - induction h as [|c h IH]; cbn [contains]; rewrite orb_true_iff.
    + intros [Hp|?]; [|done]. apply prefix_app in Hp as [b Hb]. by exists "", b.
    + intros [Hp|Hc].
      * apply prefix_app in Hp as [b Hb]. by exists "", b.
      * destruct (IH Hc) as (a & b & ->). by exists (String c a), b.
  - intros (a & b & ->). induction a as [|c a IH].
    + assert (String.prefix n (n ++ b) = true) as Hp by (apply prefix_app; eauto).
      change ("" ++ n ++ b) with (n ++ b).
      destruct (n ++ b); cbn [contains]; by rewrite Hp.
    + change (String c a ++ n ++ b) with (String c (a ++ n ++ b)).
      cbn [contains]. by rewrite IH, orb_true_r.
Qed.

Lemma contains_char (c : Ascii.ascii) (s : string) :
  contains (String c "") s = has_char c s.
Proof.
  induction s as [|d s IH]; simpl; [done|].
  rewrite IH. destruct (Ascii.ascii_dec c d) as [->|Hne].
  - rewrite Ascii.eqb_refl. by destruct s.
  - assert (Ascii.eqb d c = false) as -> by (apply Ascii.eqb_neq; congruence). done.
Qed.

Lemma split_first_has_char (c : Ascii.ascii) (s : string) :
  is_Some (split_first c s) ↔ has_char c s = true.
Proof.
  induction s as [|d s IH]; simpl.
  - split; [intros [? ?]; discriminate | done].
  - destruct (Ascii.eqb d c); simpl; [by split; eauto|].
    rewrite <- IH. destruct (split_first c s) as [[k v]|]; split; eauto;
      intros [? ?]; discriminate.
Qed.

(** The two halves of [split_first] rebuild the line, and the first half
    has no separator. *)
Lemma split_first_Some (c : Ascii.ascii) (s k v : string) :
  split_first c s = Some (k, v) →
  s = k ++ String c v ∧ has_char c k = false.
Proof.
  revert k. induction s as [|d s IH]; intros k; simpl; [done|].
  destruct (Ascii.eqb d c) eqn:E.
  - intros [= <- <-]. apply Ascii.eqb_eq in E as ->. done.
  - destruct (split_first c s) as [[k' v']|]; [|done].
    intros [= <- <-]. destruct (IH k' eq_refl) as [-> Hk]. simpl. by rewrite E, Hk.
Qed.

Lemma split_nonempty (sep : Ascii.ascii) (s : string) : split sep s ≠ [].
Proof.
  destruct s as [|c s]; simpl; [done|].
  destruct (Ascii.eqb c sep); [done|]. by destruct (split sep s).
Qed.

(** No piece of [split] holds the separator. *)
Lemma split_no_sep (sep : Ascii.ascii) (s w : string) :
  w ∈ split sep s → has_char sep w = false.
Proof.
  revert w. induction s as [|c s IH]; intros w; simpl.
  - by intros ->%list_elem_of_singleton.
  - destruct (Ascii.eqb c sep) eqn:E.
    + intros [->|Hw]%elem_of_cons; [done | by apply IH].
    + destruct (split sep s) as [|w0 ws] eqn:Es.
      * intros ->%list_elem_of_singleton. simpl. by rewrite E.
      * intros [->|Hw]%elem_of_cons.
        -- simpl. rewrite E. apply IH. left.
        -- apply IH. by right.
Qed.

Lemma contains_first_char (c : Ascii.ascii) (n h : string) :
  contains (String c n) h = true → has_char c h = true.
Proof.
  induction h as [|d h IH]; cbn [contains has_char]; [done|].
  rewrite !orb_true_iff. intros [Hp|Hc]; [|right; by apply IH].
  left. simpl in Hp. destruct (Ascii.ascii_dec c d) as [->|]; [|done].
  apply Ascii.eqb_refl.
Qed.

Lemma upper_char_not_lower (d : Ascii.ascii) : is_lower (upper_char d) = false.
Proof. destruct d as [[] [] [] [] [] [] [] []]; reflexivity. Qed.

(** An upper-cased text holds no lower-case letter. *)
Lemma has_char_upper (c : Ascii.ascii) (s : string) :
  is_lower c = true → has_char c (upper s) = false.
Proof.
  intros Hc. unfold upper. induction s as [|d s IH]; simpl; [done|].
  rewrite IH, orb_false_r. apply Ascii.eqb_neq. intros E.
  pose proof (upper_char_not_lower d) as Hd. rewrite E in Hd. congruence.
Qed.

Lemma contains_upper (c : Ascii.ascii) (n s : string) :
  is_lower c = true → contains (String c n) (upper s) = false.
Proof.
  intros Hc. destruct (contains (String c n) (upper s)) eqn:E; [|done].
  apply contains_first_char in E. by rewrite has_char_upper in E.
Qed.

End PyStrFacts.

(** ** The response parser *)

Section Parser.
Import PyStr PyStrFacts.

Lemma parse_line_split (specs : gmap string string) (line : string) :
  parse_line specs line =
  match split_first colon line with
  | Some (key, value) => <[strip key := strip value]> specs
  | None => specs
  end.
Proof.
  unfold parse_line. change ":" with (String colon "").
  rewrite contains_char. destruct (has_char colon line) eqn:E; [done|].
  destruct (split_first colon line) as [[k v]|] eqn:Es; [|done].
  assert (is_Some (split_first colon line)) as Hs by (rewrite Es; eauto).
  apply split_first_has_char in Hs. congruence.
Qed.

Lemma colon_line_split (line : string) :
  contains ":" line = true ↔ is_Some (split_first colon line).
Proof.
  change ":" with (String colon ""). rewrite contains_char.
  symmetry. apply split_first_has_char.
Qed.

(** A key that no line of [ls] writes keeps its binding. *)
Lemma fold_parse_untouched (ls : list string) (m : gmap string string) (k : string) :
  (∀ line key value,
      line ∈ ls → split_first colon line = Some (key, value) → strip key ≠ k) →
  fold_left parse_line ls m !! k = m !! k.
Proof.
  revert m. induction ls as [|l ls IH]; intros m Hk; simpl; [done|].
  rewrite IH by (intros; eapply Hk; [by right | done]).
  rewrite parse_line_split.
  destruct (split_first colon l) as [[key value]|] eqn:E; [|done].
  apply lookup_insert_ne. eapply Hk; [left | done].
Qed.

(** The last line that writes a key decides its binding. *)
Lemma fold_parse_last_wins (ls : list string) (m : gmap string string)
    (i : nat) (line key value : string) :
  ls !! i = Some line →
  split_first colon line = Some (key, value) →
  (∀ j line' key' value',
      i < j → ls !! j = Some line' →
      split_first colon line' = Some (key', value') → strip key' ≠ strip key) →
  fold_left parse_line ls m !! strip key = Some (strip value).
Proof.
  revert m i. induction ls as [|l ls IH]; intros m i Hi Hs Hlast; [done|].
  destruct i as [|i]; simpl in *.
  - injection Hi as ->. rewrite fold_parse_untouched.
    + rewrite parse_line_split, Hs. apply lookup_insert_eq.
    + intros line' key' value' [j Hj]%list_elem_of_lookup Hs'.
      eapply (Hlast (S j)); [lia | done | done].
  - eapply IH; [done | done |].
    intros j line' key' value' Hij Hj. apply (Hlast (S j)); [lia | done].
Qed.

Lemma fold_parse_is_Some (ls : list string) (m : gmap string string) (k : string) :
  is_Some (m !! k) → is_Some (fold_left parse_line ls m !! k).
Proof.
  revert m. induction ls as [|l ls IH]; intros m Hm; simpl; [done|].
  apply IH. rewrite parse_line_split.
  destruct (split_first colon l) as [[key value]|]; [|done].
  rewrite lookup_insert. case_decide; eauto.
Qed.

Lemma fold_parse_key_present (ls : list string) (m : gmap string string)
    (line key value : string) :
  line ∈ ls → split_first colon line = Some (key, value) →
  is_Some (fold_left parse_line ls m !! strip key).
Proof.
  revert m. induction ls as [|l ls IH]; intros m Hin Hs; [by apply elem_of_nil in Hin|].
  apply elem_of_cons in Hin as [<-|Hin]; simpl.
  - apply fold_parse_is_Some. rewrite parse_line_split, Hs, lookup_insert_eq. eauto.
  - by apply IH.
Qed.

(** Every binding is the initial one or was written by a line. *)
Lemma fold_parse_origin (ls : list string) (m : gmap string string) (k v : string) :
  fold_left parse_line ls m !! k = Some v →
  m !! k = Some v ∨
  ∃ line key value,
    line ∈ ls ∧ split_first colon line = Some (key, value) ∧
    k = strip key ∧ v = strip value.
Proof.
  revert m. induction ls as [|l ls IH]; intros m; simpl; [by left|].
  intros [Hm|(line & key & value & Hin & Hs & -> & ->)]%IH.
  - rewrite parse_line_split in Hm.
    destruct (split_first colon l) as [[key value]|] eqn:E; [|by left].
    rewrite lookup_insert in Hm. case_decide as Hk; [|by left].
    injection Hm as <-. right. exists l, key, value. split; [left|done].
  - right. exists line, key, value. split; [by right | done].
Qed.

Lemma fold_parse_filter (ls : list string) (m : gmap string string) :
  fold_left parse_line ls m =
  fold_left parse_line (filter (λ l, contains ":" l = true) ls) m.
Proof.
  revert m. induction ls as [|l ls IH]; intros m; [done|].
  rewrite filter_cons. case_decide as Hc; simpl; [apply IH|].
  rewrite <- IH. f_equal. unfold parse_line.
  by destruct (contains ":" l).
Qed.

End Parser.

Section ParserClaims.
Import PyStr PyStrFacts.

(** C4, as stated, fails: in the two-line text [a:1], [a:2] the first line
    has a colon, its trimmed key is [a] and its trimmed remainder is [1],
    but the mapping binds [a] to [2]. *)
Lemma parse_specs_shadowed_line :
  let text := "a:1" ++ String newline "a:2" in
  "a:1" ∈ split newline text ∧
  contains ":" "a:1" = true ∧
  split_first colon "a:1" = Some ("a", "1") ∧
  parse_specs text !! strip "a" = Some "2" ∧
  parse_specs text !! strip "a" ≠ Some (strip "1").
Proof.
  cbn zeta. split; [|split; [|split; [|split]]].
  - vm_compute. left.
  - reflexivity.
  - reflexivity.
  - by vm_compute.
  - by vm_compute.
Qed.

(** C4, amended: for every response text, every line with a colon splits at
    its first colon into a key part without colon and a remainder; the
    mapping has the trimmed key, bound to the trimmed remainder of the last
    line with that trimmed key (the line's own remainder when no later line
    has it); every binding of the mapping comes from a line with a colon;
    and the lines without a colon contribute nothing. *)
Theorem parse_specs_colon_lines (text : string) :
  let lines := split newline text in
  (∀ i line,
      lines !! i = Some line → contains ":" line = true →
      ∃ key value,
        split_first colon line = Some (key, value) ∧
        line = key ++ ":" ++ value ∧
        contains ":" key = false ∧
        is_Some (parse_specs text !! strip key) ∧
        ((∀ j line' key' value',
             i < j → lines !! j = Some line' →
             split_first colon line' = Some (key', value') →
             strip key' ≠ strip key) →
         parse_specs text !! strip key = Some (strip value))) ∧
  (∀ k v,
      parse_specs text !! k = Some v →
      ∃ line key value,
        line ∈ lines ∧ contains ":" line = true ∧
        split_first colon line = Some (key, value) ∧
        k = strip key ∧ v = strip value) ∧
  parse_specs text =
    fold_left parse_line (filter (λ l, contains ":" l = true) lines) ∅.
Proof.
  intros lines. split; [|split].
  - intros i line Hi Hc.
    destruct (proj1 (colon_line_split line) Hc) as [[key value] Hs].
    exists key, value. destruct (split_first_Some _ _ _ _ Hs) as [Hline Hkey].
    split; [done|]. split; [done|]. split.
    { change ":" with (String colon ""). by rewrite contains_char. }
    split.
    + eapply fold_parse_key_present; [|done]. apply list_elem_of_lookup. eauto.
    + intros Hlast. by eapply fold_parse_last_wins.
  - intros k v [Hm|(line & key & value & Hin & Hs & -> & ->)]%fold_parse_origin.
    + by rewrite lookup_empty in Hm.
    + exists line, key, value. split; [done|]. split; [|done].
      apply colon_line_split. rewrite Hs. eauto.
  - apply fold_parse_filter.
Qed.

(** C10: when two lines with a colon have the same trimmed key and no later
    line with a colon has it, the mapping binds the key to the trimmed
    remainder of the later of the two. *)
Theorem parse_specs_last_line_wins
    (text : string) (i j : nat) (line1 line2 key1 value1 key2 value2 : string) :
  split newline text !! i = Some line1 →
  split newline text !! j = Some line2 →
  i < j →
  split_first colon line1 = Some (key1, value1) →
  split_first colon line2 = Some (key2, value2) →
  strip key1 = strip key2 →
  (∀ n line key value,
      j < n → split newline text !! n = Some line →
      split_first colon line = Some (key, value) → strip key ≠ strip key2) →
  parse_specs text !! strip key1 = Some (strip value2).
Proof.
  intros _ Hj _ _ Hs2 -> Hlast.
  by eapply fold_parse_last_wins.
Qed.

Lemma parse_specs_last_line_wins_witness :
  parse_specs ("Type: line" ++ String newline "Title: t" ++
               String newline " Type :stacked ") !! "Type" = Some "stacked".
Proof.
  apply (parse_specs_last_line_wins _ 0 2 "Type: line" " Type :stacked "
           "Type" " line" " Type " "stacked ");
    try reflexivity; try lia.
  intros n line key value Hn Hline.
  destruct n as [|[|[|n]]]; try lia. discriminate Hline.
Defined.

End ParserClaims.

(** ** LLM client selection *)

Section Dispatch.
Import PyStr PyStrFacts.

Lemma not_contains (n h : string) :
  contains n h = false ↔ ¬ substring_of n h.
Proof.
  rewrite <- contains_spec. destruct (contains n h); split; done.
Qed.

(** C6, as stated, fails: a name containing [gemini] (or [deepseek], or
    [grok]) does not get that provider's client when it also contains
    [claude]. *)
Lemma initialize_llm_gemini_shadowed :
  substring_of "gemini" "gemini-claude" ∧
  provider_of (initialize_llm "gemini-claude") = ChatAnthropic ∧
  provider_of (initialize_llm "gemini-claude") ≠ ChatGoogleGenerativeAI.
Proof.
  split; [by exists "", "-claude" | by split].
Qed.

(** C6, amended: the selector takes the first match among [claude],
    [gemini], [deepseek], [grok]: the Anthropic client when the name
    contains [claude]; the Gemini client when it contains [gemini] and not
    [claude]; the OpenAI-compatible DeepSeek client when it contains
    [deepseek] and neither of the two before; the Groq client when it
    contains [grok] and none of the three before, each built with the given
    name as model; and with none of the four, the Anthropic client with the
    model [claude-3-haiku-20240307]. *)
Theorem initialize_llm_dispatch (model_name : string) :
  (substring_of "claude" model_name →
   initialize_llm model_name =
     Client ChatAnthropic model_name 0 "ANTHROPIC_API_KEY") ∧
  (¬ substring_of "claude" model_name →
   substring_of "gemini" model_name →
   initialize_llm model_name =
     Client ChatGoogleGenerativeAI model_name 0 "GEMINI_API_KEY") ∧
  (¬ substring_of "claude" model_name →
   ¬ substring_of "gemini" model_name →
   substring_of "deepseek" model_name →
   initialize_llm model_name =
     Client ChatOpenAI model_name 0 "DEEP_SEEK_API_KEY") ∧
  (¬ substring_of "claude" model_name →
   ¬ substring_of "gemini" model_name →
   ¬ substring_of "deepseek" model_name →
   substring_of "grok" model_name →
   initialize_llm model_name =
     Client ChatGroq model_name 0 "GROK_API_KEY") ∧
  (¬ substring_of "claude" model_name →
   ¬ substring_of "gemini" model_name →
   ¬ substring_of "deepseek" model_name →
   ¬ substring_of "grok" model_name →
   initialize_llm model_name =
     Client ChatAnthropic "claude-3-haiku-20240307" 0 "ANTHROPIC_API_KEY").
Proof.
  unfold initialize_llm.
  repeat split; intros;
    repeat match goal with
      | H : substring_of _ _ |- _ => apply contains_spec in H; rewrite H
      | H : ¬ substring_of _ _ |- _ => apply not_contains in H; rewrite H
      end; reflexivity.
Qed.

(** C9: the selector is the first match in the order claude, gemini,
    deepseek, grok, so a name containing [claude] gets the Anthropic client
    with that name whatever else it contains; and matching is
    case-sensitive: an upper-cased name matches nothing and gets the
    Anthropic client with model [claude-3-haiku-20240307], as does
    [Claude], although its lower-case form is [claude]. *)
Theorem initialize_llm_first_match (model_name : string) :
  initialize_llm model_name = first_match model_name ∧
  (substring_of "claude" model_name →
   provider_of (initialize_llm model_name) = ChatAnthropic ∧
   model (initialize_llm model_name) = model_name) ∧
  initialize_llm (upper model_name) =
    Client ChatAnthropic "claude-3-haiku-20240307" 0 "ANTHROPIC_API_KEY" ∧
  lower "Claude" = "claude" ∧
  ¬ substring_of "claude" "Claude" ∧
  initialize_llm "Claude" =
    Client ChatAnthropic "claude-3-haiku-20240307" 0 "ANTHROPIC_API_KEY".
Proof.
  split; [|split; [|split; [|split; [|split]]]].
  - unfold initialize_llm, first_match, dispatch_order. cbn [find fst].
    repeat (destruct (contains _ model_name); [reflexivity|]). reflexivity.
  - intros H%contains_spec. unfold initialize_llm. by rewrite H.
  - unfold initialize_llm. by rewrite !contains_upper.
  - reflexivity.
  - by apply not_contains.
  - reflexivity.
Qed.

End Dispatch.

(** ** Min-max normalisation *)

Section Normalisation.

Lemma fold_min_le_init (xs : list Q) (x : Q) : (fold_left Qmin xs x <= x)%Q.
Proof.
  revert x. induction xs as [|a xs IH]; intros x; simpl; [apply Qle_refl|].
  eapply Qle_trans; [apply IH | apply Q.le_min_l].
Qed.

Lemma fold_min_le (xs : list Q) (x y : Q) :
  y ∈ xs → (fold_left Qmin xs x <= y)%Q.
Proof.
  revert x. induction xs as [|a xs IH]; intros x Hy; [by apply elem_of_nil in Hy|].
  apply elem_of_cons in Hy as [->|Hy]; simpl; [|by apply IH].
  eapply Qle_trans; [apply fold_min_le_init | apply Q.le_min_r].
Qed.

Lemma fold_max_ge_init (xs : list Q) (x : Q) : (x <= fold_left Qmax xs x)%Q.
Proof.
  revert x. induction xs as [|a xs IH]; intros x; simpl; [apply Qle_refl|].
  eapply Qle_trans; [apply Q.le_max_l | apply IH].
Qed.

Lemma fold_max_ge (xs : list Q) (x y : Q) :
  y ∈ xs → (y <= fold_left Qmax xs x)%Q.
Proof.
  revert x. induction xs as [|a xs IH]; intros x Hy; [by apply elem_of_nil in Hy|].
  apply elem_of_cons in Hy as [->|Hy]; simpl; [|by apply IH].
  eapply Qle_trans; [apply Q.le_max_r | apply fold_max_ge_init].
Qed.

(** The fold returns one of the numbers it saw, not merely an equal one. *)
Lemma fold_min_elem (xs : list Q) (x : Q) : fold_left Qmin xs x ∈ x :: xs.
Proof.
  revert x. induction xs as [|a xs IH]; intros x; simpl; [left|].
  specialize (IH (Qmin x a)). apply elem_of_cons in IH as [->|IH].
  - unfold Qmin, GenericMinMax.gmin. destruct (x ?= a)%Q; [left | left | right; left].
  - right. by right.
Qed.

Lemma fold_max_elem (xs : list Q) (x : Q) : fold_left Qmax xs x ∈ x :: xs.
Proof.
  revert x. induction xs as [|a xs IH]; intros x; simpl; [left|].
  specialize (IH (Qmax x a)). apply elem_of_cons in IH as [->|IH].
  - unfold Qmax, GenericMinMax.gmax. destruct (x ?= a)%Q; [left | right; left | left].
  - right. by right.
Qed.

Lemma present_elem (l : list (option Q)) (x : Q) : x ∈ present l ↔ Some x ∈ l.
Proof.
  unfold present. rewrite list_elem_of_omap. split.
  - intros (o & Ho & Eo). simpl in Eo. by subst o.
  - intros Hx. by exists (Some x).
Qed.

(** [col_min] is an entry of the column and a lower bound of its numbers. *)
Lemma col_min_spec (l : list (option Q)) (m : Q) :
  col_min l = Some m → Some m ∈ l ∧ ∀ x, Some x ∈ l → (m <= x)%Q.
Proof.
  unfold col_min. destruct (present l) as [|x0 xs] eqn:E; [done|].
  intros [= <-]. split.
  - apply present_elem. rewrite E. apply fold_min_elem.
  - intros x Hx%present_elem. rewrite E in Hx.
    apply elem_of_cons in Hx as [->|Hx];
      [apply fold_min_le_init | by apply fold_min_le].
Qed.

Lemma col_max_spec (l : list (option Q)) (M : Q) :
  col_max l = Some M → Some M ∈ l ∧ ∀ x, Some x ∈ l → (x <= M)%Q.
Proof.
  unfold col_max. destruct (present l) as [|x0 xs] eqn:E; [done|].
  intros [= <-]. split.
  - apply present_elem. rewrite E. apply fold_max_elem.
  - intros x Hx%present_elem. rewrite E in Hx.
    apply elem_of_cons in Hx as [->|Hx];
      [apply fold_max_ge_init | by apply fold_max_ge].
Qed.

Lemma range_nonzero_false (m M : Q) :
  (M == m)%Q → range_nonzero (Some m) (Some M) = false.
Proof.
  intros E. simpl. apply negb_false_iff, Qeq_bool_iff. lra.
Qed.

Lemma range_nonzero_true (m M : Q) :
  (m < M)%Q → range_nonzero (Some m) (Some M) = true.
Proof.
  intros Hlt. simpl. apply negb_true_iff.
  destruct (Qeq_bool (M - m) 0) eqn:E; [|done].
  apply Qeq_bool_iff in E. lra.
Qed.

Context {ext : External}.

(** The loop replaces a float column that is not [DATE] by its
    normalisation, in place. *)
Lemma normalize_columns_float (df df' : DataFrame) (i : nat)
    (name : string) (l : list (option Q)) :
  normalize_columns df = Some df' →
  df !! i = Some (name, FloatCol l) → name ≠ "DATE" →
  df' !! i = Some (name, FloatCol (normalize_float l)).
Proof.
  revert df' i. induction df as [|[n c] df IH]; intros df' i Hn Hi Hname; [done|].
  simpl in Hn.
  destruct (if String.eqb n "DATE" then Some c
            else match c with
                 | FloatCol l0 => Some (FloatCol (normalize_float l0))
                 | _ => normalize_other c
                 end) as [c'|] eqn:Ec; [|done].
  simpl in Hn. destruct (normalize_columns df) as [rest|] eqn:Er; [|done].
  injection Hn as <-. destruct i as [|i]; simpl in *.
  - injection Hi as -> ->.
    destruct (String.eqb name "DATE") eqn:En.
    + apply String.eqb_eq in En. done.
    + by injection Ec as <-.
  - by apply IH.
Qed.

End Normalisation.

Section NormalisationClaims.

(** C1, as stated, fails: in the sample table the column [PS_RATIO] is
    constantly 5, its maximum equals its minimum, and the renderer leaves it
    at 5 instead of 0. *)
Lemma zero_range_column_not_zero :
  let l := [Some (5 # 1); Some (5 # 1)] in
  normalize_column_names sample_table !! 2 = Some ("PS_RATIO", FloatCol l) ∧
  col_min l = Some (5 # 1) ∧ col_max l = Some (5 # 1) ∧
  (∃ df', @normalize_columns offline_external
            (normalize_column_names sample_table) = Some df' ∧
          df' !! 2 = Some ("PS_RATIO", FloatCol l)) ∧
  normalize_float l = l ∧
  ¬ (5 # 1 == 0)%Q.
Proof.
  cbn zeta. repeat split; try reflexivity.
  - eexists. split; [vm_compute; reflexivity | reflexivity].
  - discriminate.
Qed.

Context {ext : External}.

(** C1, amended: a column other than DATE of finite numbers, NaN apart,
    whose maximum equals its minimum is left as it is by the renderer's
    normalisation: every number of it keeps its value, which is that common
    minimum. (A column of infinities is not such a column: see
    [infinite_column_becomes_nan].) *)
Theorem zero_range_column_unchanged (df df' : DataFrame) (i : nat)
    (name : string) (l : list (option Q)) (m M : Q) :
  normalize_columns df = Some df' →
  df !! i = Some (name, FloatCol l) → name ≠ "DATE" →
  col_min l = Some m → col_max l = Some M → (M == m)%Q →
  df' !! i = Some (name, FloatCol l) ∧
  normalize_float l = l ∧
  ∀ x, Some x ∈ l → (x == m)%Q.
Proof.
  intros Hn Hi Hname Hmin Hmax E.
  assert (normalize_float l = l) as Hl.
  { unfold normalize_float. by rewrite Hmin, Hmax, range_nonzero_false. }
  split; [|split; [done|]].
  - pose proof (normalize_columns_float _ _ _ _ _ Hn Hi Hname) as Hdf.
    by rewrite Hl in Hdf.
  - intros x Hx.
    pose proof (proj2 (col_min_spec _ _ Hmin) x Hx).
    pose proof (proj2 (col_max_spec _ _ Hmax) x Hx). lra.
Qed.

End NormalisationClaims.

Lemma zero_range_column_unchanged_witness :
  ∃ df', @normalize_columns offline_external
           (normalize_column_names sample_table) = Some df' ∧
         df' !! 2 = Some ("PS_RATIO", FloatCol [Some (5 # 1); Some (5 # 1)]).
Proof.
  evaluated (@normalize_columns offline_external
               (normalize_column_names sample_table))
    ltac:(fun d => exists d).
  split; [vm_compute; reflexivity|].
  match goal with
  | |- ?d !! _ = _ =>
      apply (@zero_range_column_unchanged offline_external
               (normalize_column_names sample_table) d 2 "PS_RATIO"
               [Some (5 # 1); Some (5 # 1)] (5 # 1) (5 # 1))
  end; try reflexivity.
  discriminate.
Defined.

(** ** The chart renderer *)

Section Renderer.
Context {ext : External}.

(** The only chart the renderer saves is the one it computed, under the
    fixed file name. *)
Lemma saved_chart (data : DataFrame) (specs : gmap string string)
    (path : string) (ch : chart) :
  SaveFig path ch ∈ trace (create_graph_from_llm_specs data specs) →
  chart_of data specs = Some ch ∧ path = chart_file_path.
Proof.
  unfold create_graph_from_llm_specs.
  destruct (chart_of data specs) as [ch'|]; [|by intros ?%elem_of_nil].
  destruct (draws ch'); [|by intros ?%elem_of_nil].
  intros H%list_elem_of_singleton. by injection H as -> ->.
Qed.

Lemma chart_of_fields (data : DataFrame) (specs : gmap string string) (ch : chart) :
  chart_of data specs = Some ch →
  kind ch = plot_path specs ∧ chart_title ch = title_of specs ∧
  x_label ch = x_label_of specs ∧ y_label ch = y_label_of specs.
Proof.
  unfold chart_of. destruct (negb (has_column "DATE" data)); [done|].
  destruct (normalize_columns data) as [dfn|]; [|done]. simpl.
  destruct (get_column "DATE" dfn) as [date|]; [|done]. simpl.
  destruct (to_datetime_strict date) as [stamps|]; [|done]. simpl.
  by intros [= <-].
Qed.

Lemma plot_path_cases (specs : gmap string string) :
  (plot_path specs = StackedArea ∧ graph_type specs = "stacked") ∨
  (plot_path specs = LinePlot ∧ graph_type specs ≠ "stacked").
Proof.
  unfold plot_path. destruct (String.eqb (graph_type specs) "stacked") eqn:E.
  - left. by apply String.eqb_eq in E.
  - right. by apply String.eqb_neq in E.
Qed.

(** C2, amended: a chart that the renderer draws takes the stacked-area path
    exactly when the lower-cased [Type] value is [stacked], where an absent
    [Type] counts as [stacked]; so a present [Type] with any other value
    takes the line-plot path, and an absent [Type] takes the stacked-area
    path. *)
Theorem chart_kind_by_type (data : DataFrame) (specs : gmap string string)
    (path : string) (ch : chart) :
  SaveFig path ch ∈ trace (create_graph_from_llm_specs data specs) →
  (∀ v, specs !! "Type" = Some v →
     (kind ch = StackedArea ↔ PyStr.lower v = "stacked") ∧
     (kind ch = LinePlot ↔ PyStr.lower v ≠ "stacked")) ∧
  (specs !! "Type" = None → kind ch = StackedArea).
Proof.
  intros [Hch _]%saved_chart. apply chart_of_fields in Hch as (-> & _).
  split.
  - intros v Hv.
    assert (graph_type specs = PyStr.lower v) as <-
      by (unfold graph_type, get_default; by rewrite Hv).
    destruct (plot_path_cases specs) as [[-> E]|[-> E]]; split; split; done.
  - intros Hv. unfold plot_path, graph_type, get_default. by rewrite Hv.
Qed.

(** C7, amended: a chart drawn from a spec without [Title] has the title
    [NVIDIA Financial Metrics (Normalized)], the fallback followed by the
    suffix that every title gets; without [X-axis] the x label is [Date];
    without [Y-axis] the y label is [Normalized Value (0-1 scale)]. *)
Theorem chart_fallback_texts (data : DataFrame) (specs : gmap string string)
    (path : string) (ch : chart) :
  SaveFig path ch ∈ trace (create_graph_from_llm_specs data specs) →
  (specs !! "Title" = None →
     chart_title ch = "NVIDIA Financial Metrics (Normalized)") ∧
  (∀ t, specs !! "Title" = Some t → chart_title ch = t ++ " (Normalized)") ∧
  (specs !! "X-axis" = None → x_label ch = "Date") ∧
  (specs !! "Y-axis" = None → y_label ch = "Normalized Value (0-1 scale)").
Proof.
  intros [Hch _]%saved_chart.
  apply chart_of_fields in Hch as (_ & -> & -> & ->).
  unfold title_of, x_label_of, y_label_of, get_default.
  repeat split.
  - by intros ->.
  - by intros t ->.
  - by intros ->.
  - by intros ->.
Qed.

End Renderer.

(** C2, as stated, fails: with no [Type] key the renderer draws the sample
    table on the stacked-area path, not the line-plot path. *)
Lemma absent_type_is_stacked :
  (∅ : gmap string string) !! "Type" = None ∧
  ∃ ch,
    trace (@create_graph_from_llm_specs offline_external
             (normalize_column_names sample_table) ∅)
      = [SaveFig "llm_generated_graph.png" ch] ∧
    kind ch = StackedArea ∧ kind ch ≠ LinePlot.
Proof.
  split; [reflexivity|]. eexists. split; [vm_compute; reflexivity|]. by split.
Qed.

Lemma chart_kind_by_type_witness :
  ∃ ch,
    trace (@create_graph_from_llm_specs offline_external
             (normalize_column_names sample_table)
             (<["Type" := "Line"]> ∅))
      = [SaveFig "llm_generated_graph.png" ch] ∧
    kind ch = LinePlot.
Proof.
  evaluated (@chart_of offline_external (normalize_column_names sample_table)
               (<["Type" := "Line"]> ∅))
    ltac:(fun c => exists c).
  split; [vm_compute; reflexivity|].
  match goal with
  | |- kind ?c = _ =>
      apply (@chart_kind_by_type offline_external
               (normalize_column_names sample_table)
               (<["Type" := "Line"]> ∅) "llm_generated_graph.png" c)
        with (v := "Line")
  end.
  - vm_compute. left.
  - reflexivity.
  - discriminate.
Defined.

(** C7, as stated, fails: the title of a chart drawn from a spec without
    [Title] is not the bare fallback [NVIDIA Financial Metrics]. *)
Lemma fallback_title_has_suffix :
  (∅ : gmap string string) !! "Title" = None ∧
  ∃ ch,
    trace (@create_graph_from_llm_specs offline_external
             (normalize_column_names sample_table) ∅)
      = [SaveFig "llm_generated_graph.png" ch] ∧
    chart_title ch = "NVIDIA Financial Metrics (Normalized)" ∧
    chart_title ch ≠ "NVIDIA Financial Metrics".
Proof.
  split; [reflexivity|]. eexists. split; [vm_compute; reflexivity|]. by split.
Qed.

Lemma chart_fallback_texts_witness :
  ∃ ch,
    trace (@create_graph_from_llm_specs offline_external
             (normalize_column_names sample_table) ∅)
      = [SaveFig "llm_generated_graph.png" ch] ∧
    chart_title ch = "NVIDIA Financial Metrics (Normalized)" ∧
    x_label ch = "Date" ∧
    y_label ch = "Normalized Value (0-1 scale)".
Proof.
  evaluated (@chart_of offline_external (normalize_column_names sample_table) ∅)
    ltac:(fun c =>
      exists c;
      destruct (@chart_fallback_texts offline_external
                  (normalize_column_names sample_table) ∅
                  "llm_generated_graph.png" c) as (Ht & _ & Hx & Hy);
      [vm_compute; left|]).
  split; [vm_compute; reflexivity|].
  split; [by apply Ht | split; [by apply Hx | by apply Hy]].
Defined.

(** ** The pipeline *)

Section PipelineFacts.
Context {ext : External}.

Lemma trace_bind {A B} (m : Run A) (k : A → Run B) :
  trace (m ≫= k) = (trace m ++ trace (k (value m)))%list.
Proof.
  destruct m as [t a]. unfold mbind, Run_bind, trace, value. simpl.
  by destruct (k a).
Qed.

Lemma value_bind {A B} (m : Run A) (k : A → Run B) :
  value (m ≫= k) = value (k (value m)).
Proof.
  destruct m as [t a]. unfold mbind, Run_bind, trace, value. simpl.
  by destruct (k a).
Qed.

Lemma df_empty_normalize_column_names (q : DataFrame) :
  df_empty (normalize_column_names q) = df_empty q.
Proof. by destruct q as [|[n c] q]. Qed.

Lemma get_column_None (name : string) (df : DataFrame) :
  get_column name df = None ↔ has_column name df = false.
Proof.
  unfold has_column, columns. induction df as [|[n c] df IH]; simpl; [done|].
  destruct (String.eqb name n); simpl; [split; done | done].
Qed.

(** Past the three data checks the function is the SpecAdvisor, the
    defaulting step and the renderer in sequence. *)
Lemma pipeline_after_checks (q : DataFrame) (model_name : string) (date : column) :
  let df := normalize_column_names q in
  let df2 := set_column "DATE" (DateCol (to_datetime_coerce date)) df in
  df_empty df = false →
  get_column "DATE" df = Some date →
  all_null (to_datetime_coerce date) = false →
  get_valuation_summary_with_llm_graph q model_name =
    (llm_specs ← get_graph_specs_from_llm df2 model_name;
     let graph_specs :=
       if bool_decide (llm_specs = ∅) then default_graph_specs
       else llm_specs in
     chart_file ← create_graph_from_llm_specs df2 graph_specs;
     match chart_file with
     | None => mret (SummaryFailed err_no_graph)
     | Some path => mret (SummarySuccess df2 path graph_specs)
     end).
Proof.
  intros df df2 He Hd Hn. unfold get_valuation_summary_with_llm_graph.
  fold df. rewrite He, Hd, Hn. reflexivity.
Qed.

Lemma trace_mret {A} (a : A) : trace (mret a : Run A) = [].
Proof. reflexivity. Qed.

Lemma value_create_graph (data : DataFrame) (specs : gmap string string) (p : string) :
  value (create_graph_from_llm_specs data specs) = Some p →
  ∃ ch, trace (create_graph_from_llm_specs data specs) = [SaveFig p ch] ∧
        chart_of data specs = Some ch.
Proof.
  unfold create_graph_from_llm_specs.
  destruct (chart_of data specs) as [ch|]; [|done].
  destruct (draws ch); [|done].
  intros [= <-]. by exists ch.
Qed.

Lemma asks_only (data : DataFrame) (model_name : string) (path : string) (ch : chart) :
  SaveFig path ch ∉ trace (get_graph_specs_from_llm data model_name).
Proof.
  unfold get_graph_specs_from_llm. rewrite trace_bind.
  intros [H|H]%elem_of_app.
  - by apply list_elem_of_singleton in H.
  - revert H. simpl.
    destruct (invoke _ _) as [|r]; [by intros ?%elem_of_nil|].
    destruct (negb (truthy r)); [by intros ?%elem_of_nil|].
    destruct (content r); by intros ?%elem_of_nil.
Qed.

End PipelineFacts.

Section PipelineClaims.
Context {ext : External}.

(** C3: when the query result is empty, or has no DATE column once its
    column names are upper-cased and trimmed, or has a DATE column that
    parses to no date in any row, the function returns the failed record
    with the message of the first check that fails, having asked no LLM and
    saved no chart; and the analysis built on it fails with the same
    message, again with no call made. *)
Theorem data_checks_short_circuit (q : DataFrame) (prompt model_name : string) :
  let df := normalize_column_names q in
  df_empty q = true ∨
  has_column "DATE" df = false ∨
  (∃ date, get_column "DATE" df = Some date ∧
           all_null (to_datetime_coerce date) = true) →
  ∃ msg,
    get_valuation_summary_with_llm_graph q model_name = ([], SummaryFailed msg) ∧
    summary_status (SummaryFailed msg) = "failed" ∧
    msg = (if df_empty q then err_no_data
           else if has_column "DATE" df then err_date_unparsed
           else err_date_missing) ∧
    get_ai_analysis_with_graph q prompt model_name = ([], AnalysisFailed msg) ∧
    analysis_status (AnalysisFailed msg) = "failed".
Proof.
  intros df H.
  assert (∃ msg,
    get_valuation_summary_with_llm_graph q model_name = ([], SummaryFailed msg) ∧
    msg = (if df_empty q then err_no_data
           else if has_column "DATE" df then err_date_unparsed
           else err_date_missing)) as (msg & Hrun & Hmsg).
  { unfold get_valuation_summary_with_llm_graph. fold df.
    unfold df at 1. rewrite df_empty_normalize_column_names.
    destruct (df_empty q) eqn:He; [by eexists|].
    destruct (has_column "DATE" df) eqn:Hh.
    - destruct H as [?|[?|(date & Hd & Hn)]]; [done | done |].
      rewrite Hd, Hn. by eexists.
    - apply get_column_None in Hh. rewrite Hh. by eexists. }
  exists msg. split; [done|]. split; [done|]. split; [done|]. split; [|done].
  unfold get_ai_analysis_with_graph. by rewrite Hrun.
Qed.

(** C8: when the pipeline reaches the SpecAdvisor and gets the empty
    mapping, the renderer is run on the fixed default spec, whose Type is
    [line]: every chart saved by the run is a line plot, and a successful
    run reports the default spec and the saved line plot. *)
Theorem default_specs_give_line_plot (q : DataFrame) (model_name : string)
    (date : column) :
  let df := normalize_column_names q in
  let df2 := set_column "DATE" (DateCol (to_datetime_coerce date)) df in
  let run := get_valuation_summary_with_llm_graph q model_name in
  df_empty df = false →
  get_column "DATE" df = Some date →
  all_null (to_datetime_coerce date) = false →
  value (get_graph_specs_from_llm df2 model_name) = ∅ →
  trace run =
    (trace (get_graph_specs_from_llm df2 model_name) ++
     trace (create_graph_from_llm_specs df2 default_graph_specs))%list ∧
  default_graph_specs !! "Type" = Some "line" ∧
  plot_path default_graph_specs = LinePlot ∧
  (∀ path ch, SaveFig path ch ∈ trace run → kind ch = LinePlot) ∧
  (∀ summary path specs,
      value run = SummarySuccess summary path specs →
      specs = default_graph_specs ∧
      ∃ ch, SaveFig path ch ∈ trace run ∧ kind ch = LinePlot).
Proof.
  intros df df2 run He Hd Hn Hspecs.
  assert (trace run =
    (trace (get_graph_specs_from_llm df2 model_name) ++
     trace (create_graph_from_llm_specs df2 default_graph_specs))%list) as Htr.
  { unfold run. rewrite (pipeline_after_checks q model_name date He Hd Hn).
    fold df df2. rewrite trace_bind, Hspecs. cbn zeta.
    rewrite bool_decide_eq_true_2 by done.
    rewrite trace_bind.
    destruct (value (create_graph_from_llm_specs df2 default_graph_specs));
      rewrite trace_mret; by rewrite app_nil_r. }
  assert (∀ path ch, SaveFig path ch ∈ trace run → kind ch = LinePlot) as Hline.
  { intros path ch. rewrite Htr. intros [H|H]%elem_of_app.
    - by apply asks_only in H.
    - apply saved_chart in H as [Hch _].
      by apply chart_of_fields in Hch as (-> & _). }
  split; [done|]. split; [done|]. split; [done|]. split; [done|].
  intros summary path specs. unfold run at 1.
  rewrite (pipeline_after_checks q model_name date He Hd Hn).
  fold df df2. rewrite value_bind, Hspecs. cbn zeta.
  rewrite bool_decide_eq_true_2 by done. rewrite value_bind.
  destruct (value (create_graph_from_llm_specs df2 default_graph_specs))
    as [p|] eqn:Ev; [|done].
  intros [= <- <- <-]. split; [done|].
  apply value_create_graph in Ev as (ch & Hsave & Hch).
  exists ch. assert (SaveFig p ch ∈ trace run) as Hin.
  { rewrite Htr, Hsave. apply elem_of_app. right. left. }
  split; [done | by eapply Hline].
Qed.

End PipelineClaims.

Lemma data_checks_short_circuit_witness :
  value (@get_valuation_summary_with_llm_graph offline_external
           [("date", DateCol [])] "gemini-2.0-flash")
    = SummaryFailed err_no_data ∧
  value (@get_valuation_summary_with_llm_graph offline_external
           [("pe_ratio", FloatCol [Some (50 # 1)])] "gemini-2.0-flash")
    = SummaryFailed err_date_missing ∧
  value (@get_valuation_summary_with_llm_graph offline_external
           [(" Date", TextCol [None; None]);
            ("pe_ratio", FloatCol [Some (50 # 1); Some (60 # 1)])]
           "gemini-2.0-flash")
    = SummaryFailed err_date_unparsed.
Proof.
  split; [|split].
  - destruct (@data_checks_short_circuit offline_external
                [("date", DateCol [])] "" "gemini-2.0-flash")
      as (msg & -> & _ & -> & _); [by left | reflexivity].
  - destruct (@data_checks_short_circuit offline_external
                [("pe_ratio", FloatCol [Some (50 # 1)])] "" "gemini-2.0-flash")
      as (msg & -> & _ & -> & _); [right; by left | reflexivity].
  - destruct (@data_checks_short_circuit offline_external
                [(" Date", TextCol [None; None]);
                 ("pe_ratio", FloatCol [Some (50 # 1); Some (60 # 1)])]
                "" "gemini-2.0-flash")
      as (msg & -> & _ & -> & _); [|reflexivity].
    right; right. by exists (TextCol [None; None]).
Defined.

Lemma default_specs_give_line_plot_witness :
  ∃ summary ch,
    @get_valuation_summary_with_llm_graph offline_external sample_table
      "gemini-2.0-flash"
    = ([AskLLM (initialize_llm "gemini-2.0-flash")
          (@graph_specs_prompt offline_external summary);
        SaveFig "llm_generated_graph.png" ch],
       SummarySuccess summary "llm_generated_graph.png" default_graph_specs) ∧
    kind ch = LinePlot.
Proof.
  evaluated (@chart_of offline_external
               (normalize_column_names sample_table) default_graph_specs)
    ltac:(fun c => exists (normalize_column_names sample_table), c).
  split; [vm_compute; reflexivity|].
  match goal with
  | |- kind ?c = _ =>
      apply (@default_specs_give_line_plot offline_external sample_table
               "gemini-2.0-flash"
               (DateCol [Some 0%Z; Some 86400000000000%Z]))
        with (path := "llm_generated_graph.png")
  end; try reflexivity.
  vm_compute. right. left.
Defined.

(** The whole pipeline on the sample table when the LLM answers in the
    requested format: the keys keep the leading dash of the format, so the
    renderer finds no [Type] and no [Title] in the parsed spec. *)
Example pipeline_with_llm_answer :
  let answer := "- Title: Ratios" ++ String PyStr.newline "- Type: line" in
  ∃ summary ch,
    @get_valuation_summary_with_llm_graph (answering_external answer)
      sample_table "claude-3-haiku-20240307"
    = ([AskLLM (initialize_llm "claude-3-haiku-20240307")
          (@graph_specs_prompt (answering_external answer) summary);
        SaveFig "llm_generated_graph.png" ch],
       SummarySuccess summary "llm_generated_graph.png"
         (<["- Title" := "Ratios"]> (<["- Type" := "line"]> ∅))) ∧
    kind ch = StackedArea ∧
    chart_title ch = "NVIDIA Financial Metrics (Normalized)" ∧
    map fst (series ch) = ["Pe Ratio"; "Ps Ratio"].
Proof.
  cbn zeta. do 2 eexists. split; [vm_compute; reflexivity|]. by repeat split.
Qed.

(** * Further properties of the module *)

(** ** Trimming and splitting *)

Module PyStrTrim.
Import PyStr PyStrFacts.

Lemma has_char_app (c : Ascii.ascii) (a b : string) :
  has_char c (a ++ b) = has_char c a || has_char c b.
Proof.
  induction a as [|d a IH]; simpl; [done|]. by rewrite IH, orb_assoc.
Qed.

Lemma lstrip_has_char (c : Ascii.ascii) (s : string) :
  has_char c s = false → has_char c (lstrip s) = false.
Proof.
  induction s as [|d s IH]; simpl; [done|].
  intros [Hd Hs]%orb_false_iff. destruct (is_space d); [by apply IH|].
  simpl. by rewrite Hd, Hs.
Qed.

Lemma rstrip_has_char (c : Ascii.ascii) (s : string) :
  has_char c s = false → has_char c (rstrip s) = false.
Proof.
  induction s as [|d s IH]; simpl; [done|].
  intros [Hd Hs]%orb_false_iff. specialize (IH Hs).
  destruct (rstrip s) as [|e r].
  - destruct (is_space d); simpl; [done | by rewrite Hd].
  - cbn [has_char]. cbn [has_char] in IH. by rewrite Hd, IH.
Qed.

Lemma strip_has_char (c : Ascii.ascii) (s : string) :
  has_char c s = false → has_char c (strip s) = false.
Proof. intros H. by apply rstrip_has_char, lstrip_has_char. Qed.

(** What [lstrip] leaves does not start with whitespace. *)
Lemma lstrip_head (s r : string) (c : Ascii.ascii) :
  lstrip s = String c r → is_space c = false.
Proof.
  induction s as [|d s IH]; simpl; [done|].
  destruct (is_space d) eqn:E; [done|]. by intros [= <- <-].
Qed.

Lemma rstrip_cons (c : Ascii.ascii) (s : string) :
  is_space c = false → rstrip (String c s) = String c (rstrip s).
Proof. intros Hc. simpl. rewrite Hc. by destruct (rstrip s). Qed.

Lemma rstrip_idem (s : string) : rstrip (rstrip s) = rstrip s.
Proof.
  induction s as [|c s IH]; simpl; [done|].
  destruct (rstrip s) as [|d r] eqn:E.
  - destruct (is_space c) eqn:Hc; simpl; [done | by rewrite Hc].
  - change (rstrip (String c (String d r))) with
      (match rstrip (String d r) with
       | EmptyString => if is_space c then EmptyString else String c EmptyString
       | r0 => String c r0
       end).
    by rewrite IH.
Qed.

(** Trimming a trimmed text changes nothing. *)
Lemma strip_idem (s : string) : strip (strip s) = strip s.
Proof.
  unfold strip. destruct (lstrip s) as [|c r] eqn:E; [done|].
  pose proof (lstrip_head _ _ _ E) as Hc.
  rewrite (rstrip_cons c r Hc). cbn [lstrip]. rewrite Hc.
  rewrite <- (rstrip_cons c r Hc). apply rstrip_idem.
Qed.

(** A character other than the separator is in the text exactly when it is
    in one of the pieces. *)
Lemma split_has_char (sep c : Ascii.ascii) (s : string) :
  c ≠ sep →
  has_char c s = true ↔ ∃ w, w ∈ split sep s ∧ has_char c w = true.
Proof.
  intros Hne. induction s as [|d s IH]; simpl.
  - split; [done|]. by intros (w & ->%list_elem_of_singleton & ?).
  - destruct (Ascii.eqb d sep) eqn:E.
    + apply Ascii.eqb_eq in E as ->.
      assert (Ascii.eqb sep c = false) as -> by (apply Ascii.eqb_neq; congruence).
      simpl. rewrite IH. split.
      * intros (w & Hw & Hc). exists w. split; [by right | done].
      * intros (w & [->|Hw]%elem_of_cons & Hc); [done | eauto].
    + destruct (split sep s) as [|w0 ws] eqn:Es;
        [by apply split_nonempty in Es|].
      rewrite orb_true_iff, IH. split.
      * intros [Hd|(w & [->|Hw]%elem_of_cons & Hc)].
        -- exists (String d w0). split; [left | simpl; by rewrite Hd].
        -- exists (String d w0). split; [left | simpl; by rewrite Hc, orb_true_r].
        -- exists w. split; [by right | done].
      * intros (w & [->|Hw]%elem_of_cons & Hc).
        -- simpl in Hc. apply orb_true_iff in Hc as [?|?]; [by left|].
           right. exists w0. split; [left | done].
        -- right. exists w. split; [by right | done].
Qed.

(** Splitting a text made of two parts around a separator gives the pieces
    of the first part followed by the pieces of the second. *)
Lemma split_app (sep : Ascii.ascii) (a b : string) :
  split sep (a ++ String sep b) = (split sep a ++ split sep b)%list.
Proof.
  induction a as [|c a IH]; simpl.
  - by rewrite Ascii.eqb_refl.
  - destruct (Ascii.eqb c sep); [by rewrite IH|].
    rewrite IH. destruct (split sep a) as [|w ws] eqn:E;
      [by apply split_nonempty in E | done].
Qed.

End PyStrTrim.

(** ** More on the response parser *)

Section ParserMore.
Import PyStr PyStrFacts PyStrTrim.

Lemma fold_parse_no_colon (ls : list string) (m : gmap string string) :
  (∀ line, line ∈ ls → has_char colon line = false) →
  fold_left parse_line ls m = m.
Proof.
  revert m. induction ls as [|l ls IH]; intros m Hls; simpl; [done|].
  rewrite IH by (intros; apply Hls; by right).
  rewrite parse_line_split.
  destruct (split_first colon l) as [[k v]|] eqn:E; [|done].
  assert (is_Some (split_first colon l)) as Hs by (rewrite E; eauto).
  apply split_first_has_char in Hs. rewrite Hls in Hs; [done | left].
Qed.

Lemma parse_specs_empty_iff_aux (text : string) :
  parse_specs text = ∅ ↔ has_char colon text = false.
Proof.
  assert (colon ≠ newline) as Hne by done.
  unfold parse_specs. split.
  - intros Hm. destruct (has_char colon text) eqn:E; [|done].
    apply (split_has_char newline colon text Hne) in E as (line & Hin & Hc).
    apply split_first_has_char in Hc as [[key value] Hs].
    destruct (fold_parse_key_present _ ∅ _ _ _ Hin Hs) as [v Hv].
    rewrite Hm, lookup_empty in Hv. done.
  - intros Hc. apply fold_parse_no_colon. intros line Hin.
    destruct (has_char colon line) eqn:E; [|done].
    rewrite <- Hc. symmetry. apply (split_has_char newline colon text Hne). eauto.
Qed.

(** X1: the parser returns the empty mapping exactly for the response texts
    without any colon. *)
Theorem parse_specs_empty_iff (text : string) :
  parse_specs text = ∅ ↔ PyStr.contains ":" text = false.
Proof.
  rewrite parse_specs_empty_iff_aux.
  change ":" with (String colon ""). by rewrite contains_char.
Qed.

(** X2: every key and every value of the parsed mapping is trimmed, no key
    holds a colon, and neither keys nor values hold a line break. *)
Theorem parse_specs_entries_trimmed (text k v : string) :
  parse_specs text !! k = Some v →
  strip k = k ∧ strip v = v ∧
  has_char colon k = false ∧
  has_char newline k = false ∧ has_char newline v = false.
Proof.
  intros [Hm|(line & key & value & Hin & Hs & -> & ->)]%fold_parse_origin.
  { by rewrite lookup_empty in Hm. }
  apply split_no_sep in Hin.
  destruct (split_first_Some _ _ _ _ Hs) as [-> Hkey].
  rewrite has_char_app in Hin. apply orb_false_iff in Hin as [Hk Hv].
  simpl in Hv.
  rewrite !strip_idem. repeat split; by apply strip_has_char.
Qed.

Lemma parse_specs_entries_trimmed_witness :
  strip "- Title" = "- Title" ∧ strip "a: b" = "a: b" ∧
  has_char colon "- Title" = false.
Proof.
  destruct (parse_specs_entries_trimmed
              (" - Title :  a: b " ++ String newline "no pair here")
              "- Title" "a: b") as (H1 & H2 & H3 & _);
    [by vm_compute | done].
Defined.

Lemma parse_line_union (m : gmap string string) (line : string) :
  parse_line m line = parse_line ∅ line ∪ m.
Proof.
  rewrite !parse_line_split.
  destruct (split_first colon line) as [[k v]|]; [|by rewrite (left_id_L ∅ (∪))].
  by rewrite insert_union_singleton_l, insert_empty.
Qed.

Lemma fold_parse_union (ls : list string) (m : gmap string string) :
  fold_left parse_line ls m = fold_left parse_line ls ∅ ∪ m.
Proof.
  revert m. induction ls as [|l ls IH]; intros m; simpl.
  - by rewrite (left_id_L ∅ (∪)).
  - rewrite IH, (IH (parse_line ∅ l)), (parse_line_union m l).
    by rewrite (assoc_L (∪)).
Qed.

(** X3: parsing two texts joined by a line break gives the union of their
    mappings in which the entries of the second text win. *)
Theorem parse_specs_append (a b : string) :
  parse_specs (a ++ String newline b) = parse_specs b ∪ parse_specs a.
Proof.
  unfold parse_specs. rewrite split_app, fold_left_app. apply fold_parse_union.
Qed.

(** X4: the mapping has at most as many entries as the text has lines with
    a colon. *)
Theorem parse_specs_size (text : string) :
  (size (parse_specs text) ≤
   length (filter (λ l, contains ":" l = true) (split newline text)))%nat.
Proof.
  unfold parse_specs. rewrite fold_parse_filter.
  generalize (filter (λ l, contains ":" l = true) (split newline text)).
  intros ls.
  assert (∀ m : gmap string string,
            (size (fold_left parse_line ls m) ≤ size m + length ls)%nat) as H.
  { induction ls as [|l ls IH]; intros m; simpl; [lia|].
    etrans; [apply IH|].
    assert (size (parse_line m l) ≤ S (size m))%nat; [|lia].
    rewrite parse_line_split.
    destruct (split_first colon l) as [[k v]|]; [|lia].
    destruct (m !! strip k) eqn:E.
    - rewrite map_size_insert_Some by eauto. lia.
    - rewrite map_size_insert_None by done. lia. }
  specialize (H ∅). by rewrite map_size_empty in H.
Qed.

End ParserMore.

(** ** More on the client selection *)

Section DispatchMore.
Import PyStr PyStrFacts.


(** X6: a client of another provider than Anthropic is only built for a
    name that holds that provider's substring and none of the substrings
    tried before it. *)
Theorem initialize_llm_provider_sound (model_name : string) :
  (provider_of (initialize_llm model_name) = ChatGoogleGenerativeAI →
   substring_of "gemini" model_name ∧ ¬ substring_of "claude" model_name) ∧
  (provider_of (initialize_llm model_name) = ChatOpenAI →
   substring_of "deepseek" model_name ∧ ¬ substring_of "claude" model_name ∧
   ¬ substring_of "gemini" model_name) ∧
  (provider_of (initialize_llm model_name) = ChatGroq →
   substring_of "grok" model_name ∧ ¬ substring_of "claude" model_name ∧
   ¬ substring_of "gemini" model_name ∧ ¬ substring_of "deepseek" model_name).
Proof.
  unfold initialize_llm.
  destruct (contains "claude" model_name) eqn:E1; [by repeat split|].
  destruct (contains "gemini" model_name) eqn:E2.
  { apply contains_spec in E2. apply not_contains in E1. by repeat split. }
  destruct (contains "deepseek" model_name) eqn:E3.
  { apply contains_spec in E3. apply not_contains in E1, E2. by repeat split. }
  destruct (contains "grok" model_name) eqn:E4; [|by repeat split].
  apply contains_spec in E4. apply not_contains in E1, E2, E3. by repeat split.
Qed.

(** X7: selecting again from the model name of a selected client gives the
    same client, also for the client of the default branch. *)
Theorem initialize_llm_reselect (model_name : string) :
  initialize_llm (model (initialize_llm model_name)) = initialize_llm model_name.
Proof.
  unfold initialize_llm at 2.
  destruct (contains "claude" model_name) eqn:E1.
  { unfold initialize_llm. cbn [model]. by rewrite E1. }
  destruct (contains "gemini" model_name) eqn:E2.
  { unfold initialize_llm. cbn [model]. by rewrite E1, E2. }
  destruct (contains "deepseek" model_name) eqn:E3.
  { unfold initialize_llm. cbn [model]. by rewrite E1, E2, E3. }
  destruct (contains "grok" model_name) eqn:E4.
  { unfold initialize_llm. cbn [model]. by rewrite E1, E2, E3, E4. }
  unfold initialize_llm. cbn [model]. by rewrite E1, E2, E3, E4.
Qed.

End DispatchMore.

(** ** More on the normalisation *)

Section NormalisationMore.

Lemma present_nil (l : list (option Q)) :
  present l = [] → Forall (λ x, x = None) l.
Proof.
  induction l as [|[x|] l IH]; simpl; [constructor | done |].
  intros H. constructor; [done | by apply IH].
Qed.

Lemma scale_all_missing (a b : option Q) (l : list (option Q)) :
  Forall (λ x, x = None) l → map (scale a b) l = l.
Proof.
  induction 1 as [|x l -> _ IH]; simpl; [done|]. by rewrite IH.
Qed.

(** The three ways the loop body treats a float column. *)
Lemma normalize_float_cases (l : list (option Q)) :
  (present l = [] ∧ normalize_float l = l) ∨
  (∃ m M, col_min l = Some m ∧ col_max l = Some M ∧ (M == m)%Q ∧
          normalize_float l = l) ∨
  (∃ m M, col_min l = Some m ∧ col_max l = Some M ∧ (m < M)%Q ∧
          normalize_float l = map (scale (Some m) (Some M)) l).
Proof.
  unfold normalize_float.
  destruct (col_min l) as [m|] eqn:Hmin.
  - destruct (col_max l) as [M|] eqn:Hmax.
    + right. destruct (Qeq_dec M m) as [E|Hne].
      * left. exists m, M. by rewrite range_nonzero_false.
      * right. exists m, M.
        destruct (col_min_spec _ _ Hmin) as [Hm_in Hm].
        destruct (col_max_spec _ _ Hmax) as [_ HM].
        pose proof (Hm m Hm_in). pose proof (HM m Hm_in).
        assert (m < M)%Q by (apply Qle_lteq in H0 as [?|E]; [done | by symmetry in E]).
        by rewrite range_nonzero_true.
    + unfold col_min, col_max in *. by destruct (present l).
  - left. unfold col_min in Hmin. destruct (present l) eqn:E; [|done].
    split; [done|]. simpl. by apply scale_all_missing, present_nil.
Qed.

Lemma normalize_float_length (l : list (option Q)) :
  length (normalize_float l) = length l.
Proof.
  destruct (normalize_float_cases l)
    as [[_ ->]|[(m & M & _ & _ & _ & ->)|(m & M & _ & _ & _ & ->)]];
    [done | done | apply length_map].
Qed.

End NormalisationMore.

Section NormalisationTwice.

Lemma scaled_unit (m M x : Q) :
  (m < M)%Q → (m <= x)%Q → (x <= M)%Q →
  (0 <= (x - m) / (M - m))%Q ∧ ((x - m) / (M - m) <= 1)%Q.
Proof.
  intros. split; [apply Qle_shift_div_l | apply Qle_shift_div_r]; lra.
Qed.

Lemma same_numbers_refl (l : list (option Q)) :
  Forall2 (option_Forall2 Qeq) l l.
Proof.
  induction l as [|[x|] l IH]; constructor; try done; by constructor.
Qed.

(** In a column scaled with a non-zero range the minimum is 0 and the
    maximum is 1. *)
Lemma scaled_extremes (l : list (option Q)) (m M : Q) :
  col_min l = Some m → col_max l = Some M → (m < M)%Q →
  ∃ m' M',
    col_min (map (scale (Some m) (Some M)) l) = Some m' ∧
    col_max (map (scale (Some m) (Some M)) l) = Some M' ∧
    (m' == 0)%Q ∧ (M' == 1)%Q.
Proof.
  intros Hmin Hmax Hlt. set (l' := map (scale (Some m) (Some M)) l).
  destruct (col_min_spec _ _ Hmin) as [Hm_in Hm].
  destruct (col_max_spec _ _ Hmax) as [HM_in HM].
  assert (∀ y, Some y ∈ l' → (0 <= y)%Q ∧ (y <= 1)%Q) as Hunit.
  { intros y ([x|] & Ey & Hx)%list_elem_of_fmap; [|done].
    injection Ey as ->. apply scaled_unit; auto. }
  assert (Some ((m - m) / (M - m))%Q ∈ l') as H0
    by (apply list_elem_of_fmap; by exists (Some m)).
  assert (Some ((M - m) / (M - m))%Q ∈ l') as H1
    by (apply list_elem_of_fmap; by exists (Some M)).
  destruct (col_min l') as [m'|] eqn:Hmin'.
  2:{ unfold col_min in Hmin'. destruct (present l') eqn:E; [|done].
      apply present_elem in H0. rewrite E in H0. by apply elem_of_nil in H0. }
  destruct (col_max l') as [M'|] eqn:Hmax'.
  2:{ unfold col_max in Hmax'. destruct (present l') eqn:E; [|done].
      apply present_elem in H0. rewrite E in H0. by apply elem_of_nil in H0. }
  exists m', M'. split; [done|]. split; [done|].
  destruct (col_min_spec _ _ Hmin') as [Hm'_in Hm'].
  destruct (col_max_spec _ _ Hmax') as [HM'_in HM'].
  pose proof (Hm' _ H0) as Ha. pose proof (HM' _ H1) as Hb.
  destruct (Hunit _ Hm'_in) as [Hc _]. destruct (Hunit _ HM'_in) as [_ Hd].
  assert ((m - m) / (M - m) == 0)%Q as E0 by (field; lra).
  assert ((M - m) / (M - m) == 1)%Q as E1 by (field; lra).
  rewrite E0 in Ha. rewrite E1 in Hb. split; lra.
Qed.

(** X10: normalising a normalised float column changes no number of it. *)
Theorem normalize_float_twice (l : list (option Q)) :
  Forall2 (option_Forall2 Qeq)
    (normalize_float (normalize_float l)) (normalize_float l).
Proof.
  destruct (normalize_float_cases l)
    as [[_ Hl]|[(m & M & _ & _ & _ & Hl)|(m & M & Hmin & Hmax & Hlt & Hl)]];
    [rewrite !Hl; apply same_numbers_refl
    |rewrite !Hl; apply same_numbers_refl|].
  rewrite Hl. set (l' := map (scale (Some m) (Some M)) l).
  destruct (scaled_extremes l m M Hmin Hmax Hlt) as (m' & M' & Hmin' & Hmax' & E0 & E1).
  fold l' in Hmin', Hmax'.
  assert (normalize_float l' = map (scale (Some m') (Some M')) l') as ->.
  { unfold normalize_float. rewrite Hmin', Hmax', range_nonzero_true; [done | lra]. }
  generalize l'. intros k.
  induction k as [|[y|] k IH]; simpl; constructor; try done; constructor.
  rewrite E0, E1. field.
Qed.

Context {ext : External}.

(** X11: the normalisation loop keeps the column labels and their order,
    leaves the DATE column as it is, and keeps every float column a float
    column of the same length. *)
Theorem normalize_columns_shape (df df' : DataFrame) :
  normalize_columns df = Some df' →
  columns df' = columns df ∧
  get_column "DATE" df' = get_column "DATE" df ∧
  ∀ i name l,
    df !! i = Some (name, FloatCol l) →
    ∃ l', df' !! i = Some (name, FloatCol l') ∧ length l' = length l.
Proof.
  revert df'. induction df as [|[n c] df IH]; intros df' Hn.
  { injection Hn as <-. by repeat split. }
  simpl in Hn.
  destruct (if String.eqb n "DATE" then Some c
            else match c with
                 | FloatCol l0 => Some (FloatCol (normalize_float l0))
                 | _ => normalize_other c
                 end) as [c'|] eqn:Ec; [|done].
  simpl in Hn. destruct (normalize_columns df) as [rest|] eqn:Er; [|done].
  injection Hn as <-. destruct (IH rest eq_refl) as (Hcols & Hdate & Hfloat).
  split; [simpl; by rewrite Hcols|]. split.
  - cbn [get_column]. rewrite String.eqb_sym.
    destruct (String.eqb n "DATE"); [|done]. by injection Ec as <-.
  - intros [|i] name l Hi; simpl in *; [|by apply Hfloat].
    injection Hi as -> ->. destruct (String.eqb name "DATE").
    + injection Ec as <-. by exists l.
    + injection Ec as <-. exists (normalize_float l).
      split; [done|]. apply normalize_float_length.
Qed.

End NormalisationTwice.

Lemma normalize_columns_shape_witness :
  ∃ df',
    @normalize_columns offline_external (normalize_column_names sample_table)
      = Some df' ∧
    columns df' = ["DATE"; "PE_RATIO"; "PS_RATIO"].
Proof.
  evaluated (@normalize_columns offline_external
               (normalize_column_names sample_table))
    ltac:(fun d =>
      exists d;
      destruct (@normalize_columns_shape offline_external
                  (normalize_column_names sample_table) d) as (H & _ & _);
      [vm_compute; reflexivity|]).
  split; [vm_compute; reflexivity | exact H].
Defined.

(** ** Column labels *)

Module PyStrCase.
Import PyStr PyStrFacts PyStrTrim.

Lemma is_space_upper_char (c : Ascii.ascii) : is_space (upper_char c) = is_space c.
Proof. destruct c as [[] [] [] [] [] [] [] []]; reflexivity. Qed.

Lemma upper_char_idem (c : Ascii.ascii) : upper_char (upper_char c) = upper_char c.
Proof. destruct c as [[] [] [] [] [] [] [] []]; reflexivity. Qed.

Lemma upper_idem (s : string) : upper (upper s) = upper s.
Proof.
  unfold upper. induction s as [|c s IH]; simpl; [done|].
  by rewrite upper_char_idem, IH.
Qed.

Lemma lstrip_upper (s : string) : lstrip (upper s) = upper (lstrip s).
Proof.
  unfold upper. induction s as [|c s IH]; simpl; [done|].
  rewrite is_space_upper_char. by destruct (is_space c).
Qed.

Lemma rstrip_upper (s : string) : rstrip (upper s) = upper (rstrip s).
Proof.
  unfold upper. induction s as [|c s IH]; simpl; [done|].
  rewrite IH, is_space_upper_char. destruct (rstrip s); simpl; [|done].
  by destruct (is_space c).
Qed.

(** Trimming and upper-casing commute. *)
Lemma strip_upper (s : string) : strip (upper s) = upper (strip s).
Proof. unfold strip. by rewrite lstrip_upper, rstrip_upper. Qed.

(** A label that went through [upper] and [strip] is left alone by both. *)
Lemma label_normal (s : string) :
  strip (upper (strip (upper s))) = strip (upper s).
Proof. by rewrite <- strip_upper, upper_idem, strip_idem. Qed.

End PyStrCase.

Section ColumnLabels.
Import PyStr PyStrCase.

(** X12: normalising the column labels a second time changes nothing, and
    the first time changes only the labels: the columns keep their order
    and their cells. *)
Theorem normalize_column_names_idem (q : DataFrame) :
  normalize_column_names (normalize_column_names q) = normalize_column_names q ∧
  map snd (normalize_column_names q) = map snd q ∧
  columns (normalize_column_names q) = map (λ n, strip (upper n)) (columns q).
Proof.
  unfold normalize_column_names, columns. split; [|split].
  - rewrite <- list_fmap_compose. apply list_fmap_ext. intros i [n c] _. simpl.
    by rewrite label_normal.
  - rewrite <- list_fmap_compose. by apply list_fmap_ext.
  - rewrite <- !list_fmap_compose. by apply list_fmap_ext.
Qed.

(** X13: the DATE column is found whatever the case and the surrounding
    whitespace of its label in the query result: it is found exactly when
    some label, upper-cased and trimmed, is [DATE]. *)
Theorem date_column_found_iff (q : DataFrame) :
  has_column "DATE" (normalize_column_names q) = true ↔
  ∃ name, name ∈ columns q ∧ strip (upper name) = "DATE".
Proof.
  unfold has_column, columns, normalize_column_names.
  rewrite existsb_exists. split.
  - intros (x & Hx & E). apply String.eqb_eq in E as <-.
    apply list_elem_of_In in Hx.
    apply list_elem_of_fmap in Hx as ([n c] & -> & Hx).
    apply list_elem_of_fmap in Hx as ([n0 c0] & [= -> ->] & Hx).
    exists n0. split; [|done]. apply list_elem_of_fmap. by exists (n0, c0).
  - intros (name & Hn & E). exists "DATE". split; [|done].
    apply list_elem_of_In. apply list_elem_of_fmap in Hn as ([n c] & -> & Hn).
    apply list_elem_of_fmap. exists (strip (upper n), c). split; [done|].
    apply list_elem_of_fmap. by exists (n, c).
Qed.

End ColumnLabels.

(** ** More on the chart renderer *)

Section RendererMore.
Import PyStr PyStrFacts PyStrTrim.
Context {ext : External}.

(** X14: without a DATE column the renderer returns no path and saves
    nothing; a returned path is always [llm_generated_graph.png], with
    exactly one chart saved under it; and when no path is returned no chart
    was saved. *)
Theorem create_graph_outcomes (data : DataFrame) (specs : gmap string string) :
  (has_column "DATE" data = false →
   create_graph_from_llm_specs data specs = ([], None)) ∧
  (∀ p, value (create_graph_from_llm_specs data specs) = Some p →
        p = "llm_generated_graph.png" ∧
        ∃ ch, trace (create_graph_from_llm_specs data specs) = [SaveFig p ch]) ∧
  (value (create_graph_from_llm_specs data specs) = None →
   trace (create_graph_from_llm_specs data specs) = []).
Proof.
  unfold create_graph_from_llm_specs. split; [|split].
  - intros H. unfold chart_of. by rewrite H.
  - intros p. destruct (chart_of data specs) as [ch|]; [|done].
    destruct (draws ch); [|done]. intros [= <-]. split; [done | by exists ch].
  - destruct (chart_of data specs) as [ch|]; [|done]. by destruct (draws ch).
Qed.





Lemma lstrip_key_dash (key rest r : string) :
  lstrip (key ++ String colon rest) = String dash r →
  ∃ r', lstrip key = String dash r'.
Proof.
  induction key as [|c key IH]; simpl.
  - done.
  - destruct (is_space c); [done|]. intros [= -> _]. by eexists.
Qed.

Lemma strip_dash (s r : string) :
  lstrip s = String dash r → ∃ r', strip s = String dash r'.
Proof.
  intros H. unfold strip. rewrite H, rstrip_cons by done. by eexists.
Qed.

(** X16: when every line with a colon starts, after whitespace, with a
    dash, as the format requested in the prompt does, every key of the
    parsed mapping starts with the dash; the renderer then finds none of
    its keys and draws a stacked-area chart with the fallback title and
    axis labels. *)
Theorem dashed_spec_is_ignored (text : string) :
  (∀ line, line ∈ split newline text → has_char colon line = true →
           ∃ r, lstrip line = String dash r) →
  (∀ k v, parse_specs text !! k = Some v → ∃ r, k = String dash r) ∧
  ∀ data path ch,
    SaveFig path ch ∈ trace (create_graph_from_llm_specs data (parse_specs text)) →
    kind ch = StackedArea ∧
    chart_title ch = "NVIDIA Financial Metrics (Normalized)" ∧
    x_label ch = "Date" ∧
    y_label ch = "Normalized Value (0-1 scale)".
Proof.
  intros Hdash.
  assert (∀ k v, parse_specs text !! k = Some v → ∃ r, k = String dash r) as Hkeys.
  { intros k v [Hm|(line & key & value & Hin & Hs & -> & _)]%fold_parse_origin.
    { by rewrite lookup_empty in Hm. }
    assert (has_char colon line = true) as Hc.
    { apply split_first_has_char. rewrite Hs. eauto. }
    destruct (Hdash line Hin Hc) as [r Hr].
    destruct (split_first_Some _ _ _ _ Hs) as [-> _].
    apply lstrip_key_dash in Hr as [r' Hr']. by apply strip_dash in Hr'. }
  split; [done|]. intros data path ch [Hch _]%saved_chart.
  assert (∀ k, (∀ r, k ≠ String dash r) → parse_specs text !! k = None) as Hnone.
  { intros k Hk. destruct (parse_specs text !! k) as [v|] eqn:E; [|done].
    destruct (Hkeys k v E) as [r ->]. by destruct (Hk r). }
  apply chart_of_fields in Hch as (-> & -> & -> & ->).
  unfold plot_path, graph_type, title_of, x_label_of, y_label_of, get_default.
  by rewrite !Hnone by done.
Qed.

End RendererMore.


Lemma dashed_spec_is_ignored_witness :
  ∃ ch,
    trace (@create_graph_from_llm_specs offline_external
             (normalize_column_names sample_table)
             (parse_specs ("- Title: Ratios" ++ String PyStr.newline
                           "  - Type: line")))
      = [SaveFig "llm_generated_graph.png" ch] ∧
    kind ch = StackedArea.
Proof.
  evaluated (@chart_of offline_external (normalize_column_names sample_table)
               (parse_specs ("- Title: Ratios" ++ String PyStr.newline
                             "  - Type: line")))
    ltac:(fun c => exists c).
  split; [vm_compute; reflexivity|].
  match goal with
  | |- kind ?c = _ =>
      eapply (proj2 (@dashed_spec_is_ignored offline_external
                       ("- Title: Ratios" ++ String PyStr.newline
                        "  - Type: line") _)
                (normalize_column_names sample_table)
                "llm_generated_graph.png" c)
  end.
  vm_compute. left.
  Unshelve.
  intros line Hin _. vm_compute in Hin.
  apply elem_of_cons in Hin as [->|Hin]; [by eexists|].
  apply list_elem_of_singleton in Hin as ->. by eexists.
Defined.

(** ** More on the pipeline *)

Section PipelineMore.
Context {ext : External}.

Lemma default_graph_specs_nonempty : default_graph_specs ≠ ∅.
Proof.
  intros E. assert (default_graph_specs !! "Type" = Some "line") as H by done.
  by rewrite E, lookup_empty in H.
Qed.

Lemma get_graph_specs_run (data : DataFrame) (model_name : string) :
  trace (get_graph_specs_from_llm data model_name) =
    [AskLLM (initialize_llm model_name) (graph_specs_prompt data)].
Proof.
  unfold get_graph_specs_from_llm. rewrite trace_bind. simpl.
  destruct (invoke _ _) as [|r]; [done|].
  destruct (negb (truthy r)); [done|]. by destruct (content r).
Qed.

(** Every way the function can end: one of the three data checks fails
    with nothing done; or the LLM is asked once and then either the
    renderer gives no path, or one chart is saved and the run succeeds. *)
Lemma pipeline_cases (q : DataFrame) (model_name : string) :
  let run := get_valuation_summary_with_llm_graph q model_name in
  (∃ msg, run = ([], SummaryFailed msg) ∧
          msg ∈ [err_no_data; err_date_missing; err_date_unparsed]) ∨
  (∃ date specs,
     let df2 := set_column "DATE" (DateCol (to_datetime_coerce date))
                  (normalize_column_names q) in
     get_column "DATE" (normalize_column_names q) = Some date ∧
     specs ≠ ∅ ∧
     ((run = ([AskLLM (initialize_llm model_name) (graph_specs_prompt df2)],
              SummaryFailed err_no_graph)) ∨
      (∃ ch, chart_of df2 specs = Some ch ∧
             run = ([AskLLM (initialize_llm model_name) (graph_specs_prompt df2);
                     SaveFig "llm_generated_graph.png" ch],
                    SummarySuccess df2 "llm_generated_graph.png" specs)))).
Proof.
  intros run. unfold run, get_valuation_summary_with_llm_graph.
  destruct (df_empty (normalize_column_names q)).
  { left. eexists. split; [done|]. set_solver. }
  destruct (get_column "DATE" (normalize_column_names q)) as [date|] eqn:Hd.
  2:{ left. eexists. split; [done|]. set_solver. }
  destruct (all_null (to_datetime_coerce date)).
  { left. eexists. split; [done|]. set_solver. }
  right. set (df2 := set_column "DATE" _ _).
  pose proof (get_graph_specs_run df2 model_name) as Ht.
  destruct (get_graph_specs_from_llm df2 model_name) as [t llm_specs].
  unfold trace in Ht. simpl in Ht. subst t.
  set (specs := if bool_decide (llm_specs = ∅) then default_graph_specs
                else llm_specs).
  exists date, specs. split; [done|]. split.
  { unfold specs. case_bool_decide; [apply default_graph_specs_nonempty | done]. }
  unfold mbind, Run_bind. unfold create_graph_from_llm_specs. fold specs.
  destruct (chart_of df2 specs) as [ch|] eqn:Hch; [|left; reflexivity].
  destruct (draws ch); [|left; reflexivity]. right. by exists ch.
Qed.



End PipelineMore.

(** ** The analysis and the script *)

Section AnalysisMore.
Context {ext : External}.

(** X19: a successful analysis returns the fixed chart file name, whatever
    the file-existence test says, together with the summary and the spec of
    the pipeline; it has asked the LLM twice, both times with the client of
    the model name, with the chart saved in between; and its text is the
    content of the second answer, or the answer printed as a string when it
    has no content. *)
Theorem analysis_success_shape (q : DataFrame) (prompt model_name : string)
    (analysis path : string) (summary : DataFrame)
    (specs : gmap string string) :
  value (get_ai_analysis_with_graph q prompt model_name)
    = AnalysisSuccess analysis path summary specs →
  path = "llm_generated_graph.png" ∧
  value (get_valuation_summary_with_llm_graph q model_name)
    = SummarySuccess summary path specs ∧
  ∃ ch r,
    trace (get_ai_analysis_with_graph q prompt model_name) =
      [AskLLM (initialize_llm model_name) (graph_specs_prompt summary);
       SaveFig path ch;
       AskLLM (initialize_llm model_name) (analysis_prompt summary specs)] ∧
    invoke (initialize_llm model_name) (analysis_prompt summary specs)
      = LLMReturns r ∧
    analysis = match content r with
               | Some text => text
               | None => response_str r
               end.
Proof.
  unfold get_ai_analysis_with_graph.
  destruct (pipeline_cases q model_name)
    as [(msg & -> & _)|(date & sp & Hd & Hsp & [->|(ch & Hch & ->)])];
    [done | done |].
  set (df2 := set_column "DATE" _ _).
  unfold mbind, Run_bind, value, trace. cbn -[initialize_llm analysis_prompt graph_specs_prompt].
  destruct (invoke (initialize_llm model_name) (analysis_prompt df2 sp))
    as [m|r] eqn:Hr; [done|].
  cbn -[initialize_llm analysis_prompt graph_specs_prompt].
  assert ((if negb (path_exists "llm_generated_graph.png")
           then if path_exists "llm_generated_graph.png"
                then "llm_generated_graph.png" else "llm_generated_graph.png"
           else "llm_generated_graph.png") = "llm_generated_graph.png") as ->
    by (by destruct (path_exists "llm_generated_graph.png")).
  intros [= <- <- <- <-]. split; [done|]. split; [done|]. by exists ch, r.
Qed.

(** X20: a failed analysis either passes on the message of the failed
    pipeline, having made no further call, or reports the exception of the
    second LLM call behind the prefix [Analysis unavailable - ], in which
    case the chart had already been saved. *)
Theorem analysis_failure_shape (q : DataFrame) (prompt model_name msg : string) :
  value (get_ai_analysis_with_graph q prompt model_name) = AnalysisFailed msg →
  (value (get_valuation_summary_with_llm_graph q model_name) = SummaryFailed msg ∧
   trace (get_ai_analysis_with_graph q prompt model_name) =
     trace (get_valuation_summary_with_llm_graph q model_name)) ∨
  (∃ summary path specs ch message,
     value (get_valuation_summary_with_llm_graph q model_name)
       = SummarySuccess summary path specs ∧
     invoke (initialize_llm model_name) (analysis_prompt summary specs)
       = LLMRaises message ∧
     msg = "Analysis unavailable - " ++ message ∧
     SaveFig path ch ∈ trace (get_ai_analysis_with_graph q prompt model_name)).
Proof.
  unfold get_ai_analysis_with_graph.
  destruct (pipeline_cases q model_name)
    as [(m & -> & _)|(date & sp & Hd & Hsp & [->|(ch & Hch & ->)])].
  - intros [= <-]. by left.
  - intros [= <-]. by left.
  - set (df2 := set_column "DATE" _ _).
    unfold mbind, Run_bind, value, trace.
    cbn -[initialize_llm analysis_prompt graph_specs_prompt].
    destruct (invoke (initialize_llm model_name) (analysis_prompt df2 sp))
      as [m|r] eqn:Hr; [|done].
    cbn -[initialize_llm analysis_prompt graph_specs_prompt].
    intros [= <-]. right. exists df2, "llm_generated_graph.png", sp, ch, m.
    split; [done|]. split; [done|]. split; [done|]. right. left.
Qed.

(** X21: every LLM request of the script's run goes to the Gemini client
    built for [gemini-2.0-flash]; the script asks and saves nothing beyond
    what the analysis does; its last statement prints the text of a
    successful analysis, and when the analysis failed the lookup of the key
    [analysis] in the failure dict raises [KeyError]. *)
Theorem main_outcomes (q : DataFrame) :
  (∀ c prompt,
      AskLLM c prompt ∈ trace (main q) →
      c = Client ChatGoogleGenerativeAI "gemini-2.0-flash" 0 "GEMINI_API_KEY") ∧
  trace (main q) =
    trace (get_ai_analysis_with_graph q main_prompt "gemini-2.0-flash") ∧
  (∀ text path summary specs,
      value (get_ai_analysis_with_graph q main_prompt "gemini-2.0-flash")
        = AnalysisSuccess text path summary specs →
      value (main q) = Printed text) ∧
  (∀ msg,
      value (get_ai_analysis_with_graph q main_prompt "gemini-2.0-flash")
        = AnalysisFailed msg →
      value (main q) = RaisedKeyError "analysis").
Proof.
  assert (trace (main q) =
          trace (get_ai_analysis_with_graph q main_prompt "gemini-2.0-flash")) as Ht.
  { unfold main. rewrite trace_bind.
    destruct (value _); by rewrite trace_mret, app_nil_r. }
  assert (∀ t, trace (get_ai_analysis_with_graph q main_prompt "gemini-2.0-flash") = t →
     ∀ c prompt, AskLLM c prompt ∈ t →
        c = Client ChatGoogleGenerativeAI "gemini-2.0-flash" 0 "GEMINI_API_KEY")
    as Hshape.
  { intros t <-. unfold get_ai_analysis_with_graph.
    destruct (pipeline_cases q "gemini-2.0-flash")
      as [(m & -> & _)|(date & sp & Hd & Hsp & [->|(ch & Hch & ->)])].
    - by intros ?? ?%elem_of_nil.
    - intros c p H%list_elem_of_singleton. by injection H as -> _.
    - set (df2 := set_column "DATE" _ _).
      unfold mbind, Run_bind, value, trace.
      cbn -[analysis_prompt graph_specs_prompt].
      destruct (invoke _ (analysis_prompt df2 sp));
        cbn -[analysis_prompt graph_specs_prompt].
      + intros c p. rewrite !elem_of_cons, elem_of_nil.
        intros [H|[H|[H|[]]]]; by inversion H.
      + intros c p. rewrite !elem_of_cons, elem_of_nil.
        intros [H|[H|[H|[]]]]; by inversion H. }
  split; [rewrite Ht; by apply Hshape|]. split; [done|].
  split; intros; unfold main; rewrite value_bind; by rewrite H.
Qed.

End AnalysisMore.

(** ** The bar chart *)

Section BarChartFacts.
Context {bext : BarExternal}.

Lemma cell_eqb_refl (x : cell) : is_missing x = false → cell_eqb x x = true.
Proof.
  destruct x as [[a|]|[a|]|[a|]]; simpl; try done; intros _.
  - by apply Qeq_bool_iff.
  - apply Z.eqb_refl.
  - apply String.eqb_refl.
Qed.

Lemma cell_eqb_missing_l (x y : cell) : is_missing x = true → cell_eqb x y = false.
Proof. by destruct x as [[a|]|[a|]|[a|]]. Qed.

Lemma cell_eqb_missing_r (x y : cell) : is_missing y = true → cell_eqb x y = false.
Proof.
  destruct y as [[b|]|[b|]|[b|]]; try done; by destruct x as [[a|]|[a|]|[a|]].
Qed.

Lemma first_index_None (p : cell → bool) (l : list cell) :
  first_index p l = None ↔ ∀ x, x ∈ l → p x = false.
Proof.
  induction l as [|y l IH]; simpl.
  - split; [by intros _ x ?%elem_of_nil | done].
  - destruct (p y) eqn:E.
    + split; [done|]. intros H. rewrite H in E; [done | left].
    + destruct (first_index p l) as [i|]; simpl.
      * split; [done|]. intros H.
        assert (Some i = None) as ?; [|done].
        apply IH. intros x Hx. apply H. by right.
      * split; [|done]. intros _ x [->|Hx]%elem_of_cons; [done|].
        by apply IH.
Qed.

Lemma first_index_Some (p : cell → bool) (l : list cell) (i : nat) :
  first_index p l = Some i →
  ∃ x, l !! i = Some x ∧ p x = true ∧
       ∀ j y, (j < i)%nat → l !! j = Some y → p y = false.
Proof.
  revert i. induction l as [|z l IH]; intros i; simpl; [done|].
  destruct (p z) eqn:E.
  - intros [= <-]. exists z. split; [done|]. split; [done|]. intros; lia.
  - destruct (first_index p l) as [i'|]; [|done]. simpl. intros [= <-].
    destruct (IH i' eq_refl) as (x & Hx & Hp & Hbefore).
    exists x. split; [done|]. split; [done|].
    intros [|j] y Hj Hy; simpl in Hy; [by injection Hy as <-|].
    apply (Hbefore j); [lia | done].
Qed.

Lemma unique_elem (l : list cell) (x : cell) : x ∈ unique l → x ∈ l.
Proof.
  induction l as [|y l IH]; simpl; [done|].
  intros [->|Hx]%elem_of_cons; [left|]. right.
  apply list_elem_of_filter in Hx as [_ Hx]. by apply IH.
Qed.

Lemma unique_missing (l : list cell) (x : cell) :
  x ∈ l → is_missing x = true → ∃ y, y ∈ unique l ∧ is_missing y = true.
Proof.
  induction l as [|z l IH]; [by intros ?%elem_of_nil|].
  intros [->|Hx]%elem_of_cons Hm; simpl.
  - exists z. split; [left | done].
  - destruct (is_missing z) eqn:Ez.
    + exists z. split; [left | done].
    + destruct (IH Hx Hm) as (y & Hy & Hmy). exists y. split; [|done].
      right. apply list_elem_of_filter. split; [|done].
      unfold same_value. by rewrite (cell_eqb_missing_r z y Hmy), Ez.
Qed.

Lemma unique_length (l : list cell) : (length (unique l) ≤ length l)%nat.
Proof.
  induction l as [|z l IH]; simpl; [lia|].
  pose proof (length_filter (λ y, negb (same_value z y) = true) (unique l)). lia.
Qed.

(** What a loop that ran to its end has drawn. *)
Lemma draw_bars_done (df : DataFrame) (date_col dates : list cell) (bars : list bar) :
  draw_bars df date_col dates = (bars, None) →
  Forall2 (λ d b,
    bar_x b = tail (columns df) ∧ bar_label b = str_date d ∧
    bar_raises b = None ∧
    ∃ i x, date_col !! i = Some x ∧ cell_eqb d x = true ∧
           (∀ j y, (j < i)%nat → date_col !! j = Some y → cell_eqb d y = false) ∧
           bar_height b = row_tail i df) dates bars.
Proof.
  revert bars. induction dates as [|d dates IH]; intros bars; simpl.
  - intros [= <-]. constructor.
  - destruct (first_index (cell_eqb d) date_col) as [i|] eqn:Ei; [|done].
    destruct (bar_raises _) eqn:Eb; [done|].
    destruct (draw_bars df date_col dates) as [bs stopped].
    intros [= <- ->]. constructor; [|by apply IH].
    apply first_index_Some in Ei as (x & Hx & Hp & Hbefore).
    split; [done|]. split; [done|]. split; [done|]. by exists i, x.
Qed.

(** A loop that meets a missing date does not run to its end. *)
Lemma draw_bars_missing (df : DataFrame) (date_col dates : list cell) (d : cell) :
  d ∈ dates → is_missing d = true →
  ∃ message, snd (draw_bars df date_col dates) = Some message.
Proof.
  induction dates as [|d0 dates IH]; [by intros ?%elem_of_nil|].
  intros Hd Hm. simpl.
  destruct (first_index (cell_eqb d0) date_col) as [i|] eqn:Ei; [|by eexists].
  destruct (bar_raises _); [by eexists|].
  apply elem_of_cons in Hd as [<-|Hd].
  - apply first_index_Some in Ei as (x & _ & Hp & _).
    by rewrite cell_eqb_missing_l in Hp.
  - destruct (IH Hd Hm) as [message Hmsg].
    destruct (draw_bars df date_col dates) as [bs stopped]. simpl in *. eauto.
Qed.

End BarChartFacts.

Section BarChartProperties.
Context {bext : BarExternal}.

(** X22: on an empty query result the bar-chart function fails with the
    message about missing data, and on a non-empty one without DATE column
    it fails with the text of the [KeyError], the quoted column name; in
    both cases no bar has been drawn. *)
Theorem valuation_summary_data_errors (q : DataFrame) (query : option string) :
  (df_empty q = true →
   get_valuation_summary q query = ([], ValuationFailed err_no_data)) ∧
  (df_empty q = false →
   has_column "DATE" (normalize_column_names q) = false →
   get_valuation_summary q query = ([], ValuationFailed "'DATE'")).
Proof.
  unfold get_valuation_summary. rewrite df_empty_normalize_column_names.
  split; [by intros ->|]. intros -> H. apply get_column_None in H. by rewrite H.
Qed.

(** X23: a successful bar chart has one bar group per distinct DATE value,
    in the order of first appearance: each is labelled with its date, has
    the column labels after the first as x values, and takes its heights
    from the first row with that date, so later rows with the same date are
    never drawn; and no DATE value is missing. *)
Theorem valuation_summary_success_bars (q : DataFrame) (query : option string)
    (bars : list bar) (img summary : string) :
  get_valuation_summary q query = (bars, ValuationSuccess img summary) →
  let df := normalize_column_names q in
  ∃ date_col,
    get_column "DATE" df = Some date_col ∧
    (∀ d, d ∈ cells date_col → is_missing d = false) ∧
    (length bars ≤ nrows_of date_col)%nat ∧
    Forall2 (λ d b,
      bar_x b = tail (columns df) ∧ bar_label b = str_date d ∧
      ∃ i x, cells date_col !! i = Some x ∧ cell_eqb d x = true ∧
             (∀ j y, (j < i)%nat → cells date_col !! j = Some y →
                     cell_eqb d y = false) ∧
             bar_height b = row_tail i df)
      (unique (cells date_col)) bars ∧
    encode_png bars = inl img ∧ summary = to_string df.
Proof.
  intros H df. unfold get_valuation_summary in H. fold df in H.
  unfold nrows_of.
  destruct (df_empty df); [done|].
  destruct (get_column "DATE" df) as [date_col|]; [|done].
  destruct (draw_bars df (cells date_col) (unique (cells date_col)))
    as [bs stopped] eqn:Eb.
  destruct stopped as [message|]; [done|].
  destruct (encode_png bs) as [img'|message] eqn:Ee; [|done].
  injection H as -> <- <-. exists date_col. split; [done|].
  pose proof (draw_bars_done _ _ _ _ Eb) as Hbars.
  split; [|split; [|split; [|done]]].
  - intros d Hd. destruct (is_missing d) eqn:Hm; [|done].
    destruct (unique_missing _ _ Hd Hm) as (y & Hy & Hmy).
    destruct (draw_bars_missing df (cells date_col) _ y Hy Hmy) as [message Hmsg].
    by rewrite Eb in Hmsg.
  - rewrite <- (Forall2_length _ _ _ Hbars). apply unique_length.
  - eapply Forall2_impl; [exact Hbars|].
    intros d b (Hx & Hl & _ & Hrow). by repeat split.
Qed.

(** X24: a missing value anywhere in the DATE column makes the bar-chart
    function fail, whatever the other rows hold. *)
Theorem valuation_summary_missing_date (q : DataFrame) (query : option string)
    (date_col : column) (d : cell) :
  df_empty q = false →
  get_column "DATE" (normalize_column_names q) = Some date_col →
  d ∈ cells date_col → is_missing d = true →
  ∃ message, snd (get_valuation_summary q query) = ValuationFailed message.
Proof.
  intros He Hd Hin Hm. unfold get_valuation_summary.
  rewrite df_empty_normalize_column_names, He, Hd.
  destruct (unique_missing _ _ Hin Hm) as (y & Hy & Hmy).
  destruct (draw_bars_missing (normalize_column_names q) (cells date_col) _ y Hy Hmy)
    as [message Hmsg].
  destruct (draw_bars _ _ _) as [bs stopped]. simpl in Hmsg. subst stopped.
  by exists message.
Qed.

End BarChartProperties.

(** ** The properties at concrete inputs *)



Lemma analysis_success_shape_witness :
  ∃ summary specs,
    value (@get_ai_analysis_with_graph (answering_external "Type: line")
             sample_table "" "grok-2")
      = AnalysisSuccess "Type: line" "llm_generated_graph.png" summary specs ∧
    value (@get_valuation_summary_with_llm_graph
             (answering_external "Type: line") sample_table "grok-2")
      = SummarySuccess summary "llm_generated_graph.png" specs.
Proof.
  exists (normalize_column_names sample_table), (<["Type" := "line"]> ∅).
  split; [vm_compute; reflexivity|].
  apply (@analysis_success_shape (answering_external "Type: line")
           sample_table "" "grok-2" "Type: line" "llm_generated_graph.png"
           (normalize_column_names sample_table) (<["Type" := "line"]> ∅)).
  vm_compute. reflexivity.
Defined.

Lemma analysis_failure_shape_witness :
  value (@get_ai_analysis_with_graph offline_external sample_table ""
           "deepseek-chat")
    = AnalysisFailed "Analysis unavailable - connection refused" ∧
  ((value (@get_valuation_summary_with_llm_graph offline_external sample_table
             "deepseek-chat")
      = SummaryFailed "Analysis unavailable - connection refused" ∧
    trace (@get_ai_analysis_with_graph offline_external sample_table ""
             "deepseek-chat") =
      trace (@get_valuation_summary_with_llm_graph offline_external
               sample_table "deepseek-chat")) ∨
   (∃ summary path specs ch message,
      value (@get_valuation_summary_with_llm_graph offline_external
               sample_table "deepseek-chat")
        = SummarySuccess summary path specs ∧
      @invoke offline_external (initialize_llm "deepseek-chat")
        (@analysis_prompt offline_external summary specs) = LLMRaises message ∧
      "Analysis unavailable - connection refused"
        = "Analysis unavailable - " ++ message ∧
      SaveFig path ch ∈
        trace (@get_ai_analysis_with_graph offline_external sample_table ""
                 "deepseek-chat"))).
Proof.
  split; [vm_compute; reflexivity|].
  apply (@analysis_failure_shape offline_external sample_table ""
           "deepseek-chat" "Analysis unavailable - connection refused").
  vm_compute. reflexivity.
Defined.

(** A table in which the first date occurs twice. *)
Lemma valuation_summary_success_bars_witness :
  let q := [("date", DateCol [Some 7%Z; Some 7%Z; Some 3%Z]);
            ("pe_ratio", FloatCol [Some (50 # 1); Some (60 # 1); Some (70 # 1)])] in
  ∃ bars img summary,
    @get_valuation_summary plain_bars q None
      = (bars, ValuationSuccess img summary) ∧
    map bar_height bars = [[FloatCell (Some (50 # 1))]; [FloatCell (Some (70 # 1))]] ∧
    (length bars ≤ 3)%nat.
Proof.
  intros q.
  let v := eval vm_compute in (@get_valuation_summary plain_bars q None) in
  match v with
  | (?bs, ValuationSuccess ?i ?s) =>
      exists bs, i, s;
      destruct (@valuation_summary_success_bars plain_bars q None bs i s)
        as (date_col & Hd & _ & Hlen & _);
      [vm_compute; reflexivity|]
  end.
  split; [vm_compute; reflexivity|]. split; [vm_compute; reflexivity|].
  cbn zeta in Hd. vm_compute in Hd. injection Hd as <-. exact Hlen.
Defined.

Lemma valuation_summary_missing_date_witness :
  ∃ message,
    snd (@get_valuation_summary plain_bars
           [("DATE", TextCol [Some "2024-01-31"; None]);
            ("PE_RATIO", FloatCol [Some (50 # 1); Some (60 # 1)])] None)
      = ValuationFailed message.
Proof.
  apply (@valuation_summary_missing_date plain_bars
           [("DATE", TextCol [Some "2024-01-31"; None]);
            ("PE_RATIO", FloatCol [Some (50 # 1); Some (60 # 1)])] None
           (TextCol [Some "2024-01-31"; None]) (TextCell None));
    try reflexivity.
  vm_compute. right. left.
Defined.

(** ** When the default spec is used, and what the renderer reads *)

Section SpecUse.
Import PyStr.
Context {ext : External}.


(** X26: the renderer reads only the keys Type, Title, X-axis and Y-axis:
    two specs that agree on these four give the same chart and the same
    result, so the Colors and Additional elements asked for in the prompt
    have no effect. *)
Theorem renderer_reads_four_keys (data : DataFrame)
    (specs specs' : gmap string string) :
  specs !! "Type" = specs' !! "Type" →
  specs !! "Title" = specs' !! "Title" →
  specs !! "X-axis" = specs' !! "X-axis" →
  specs !! "Y-axis" = specs' !! "Y-axis" →
  create_graph_from_llm_specs data specs =
  create_graph_from_llm_specs data specs'.
Proof.
  intros H1 H2 H3 H4.
  assert (chart_of data specs = chart_of data specs') as Hch.
  { unfold chart_of, plot_path, graph_type, title_of, x_label_of, y_label_of,
      get_default. by rewrite H1, H2, H3, H4. }
  unfold create_graph_from_llm_specs. by rewrite Hch.
Qed.

End SpecUse.

Lemma renderer_reads_four_keys_witness :
  @create_graph_from_llm_specs offline_external
    (normalize_column_names sample_table)
    (<["Colors" := "viridis"]> (<["Type" := "line"]> ∅)) =
  @create_graph_from_llm_specs offline_external
    (normalize_column_names sample_table)
    (<["Additional elements" := "grid"]> (<["Type" := "line"]> ∅)).
Proof.
  apply (@renderer_reads_four_keys offline_external); reflexivity.
Defined.

(** ** The normalisation in float64 arithmetic *)

(** Inequalities of [Qc] through those of [Q]. *)
Ltac qc_to_q :=
  unfold Qcle, Qclt, Qcminus, Qcplus, Qcopp, Qcdiv, Qcmult, Qcinv in *;
  simpl in *; rewrite ?Qred_correct in *.

Section RationalFacts.

Lemma Qc_sub_nonneg (m x : Qc) : (m ≤ x)%Qc → (0 ≤ x - m)%Qc.
Proof. intros H. qc_to_q. lra. Qed.

Lemma Qc_sub_mono (m x y : Qc) : (x ≤ y)%Qc → (x - m ≤ y - m)%Qc.
Proof. intros H. qc_to_q. lra. Qed.

Lemma Qc_sub_nonpos (m x : Qc) : (x ≤ m)%Qc → (x - m ≤ 0)%Qc.
Proof. intros H. qc_to_q. lra. Qed.

Lemma Qc_div_unit (a b : Qc) :
  (0 ≤ a)%Qc → (a ≤ b)%Qc → (0 < b)%Qc → (0 ≤ a / b)%Qc ∧ (a / b ≤ 1)%Qc.
Proof.
  intros H0 H1 H2. qc_to_q. split.
  - change (0 <= this a / this b)%Q. apply Qle_shift_div_l; lra.
  - change (this a / this b <= 1)%Q. apply Qle_shift_div_r; lra.
Qed.

Lemma Qc_div_mono (a1 a2 b : Qc) :
  (a1 ≤ a2)%Qc → (0 < b)%Qc → (a1 / b ≤ a2 / b)%Qc.
Proof.
  intros H1 H2. qc_to_q. apply Qmult_le_compat_r; [done|].
  by apply Qlt_le_weak, Qinv_lt_0_compat.
Qed.

Lemma Qc_div_same (b : Qc) : b ≠ 0%Qc → (b / b)%Qc = 1%Qc.
Proof. intros. by field. Qed.

Lemma Qc_div_zero (b : Qc) : b ≠ 0%Qc → (0 / b)%Qc = 0%Qc.
Proof. intros. by field. Qed.

Lemma Qc_sub_same (b : Qc) : (b - b)%Qc = 0%Qc.
Proof. ring. Qed.

End RationalFacts.

Section Float64Facts.
Context {rnd : Rounding}.

Lemma f64_leb_Fin (x y : Qc) : f64_leb (Fin x) (Fin y) = true ↔ (x ≤ y)%Qc.
Proof. simpl. apply bool_decide_eq_true. Qed.

Lemma f64_leb_not_nan (a b : f64) :
  f64_leb a b = true → f64_is_nan a = false ∧ f64_is_nan b = false.
Proof. by destruct a, b. Qed.

Lemma f64_leb_refl (a : f64) : f64_is_nan a = false → f64_leb a a = true.
Proof. destruct a; try done. intros _. by apply f64_leb_Fin. Qed.

Lemma f64_leb_trans (a b c : f64) :
  f64_leb a b = true → f64_leb b c = true → f64_leb a c = true.
Proof.
  destruct a as [x| | |], b as [y| | |], c as [z| | |]; try done.
  rewrite !f64_leb_Fin. apply Qcle_trans.
Qed.

Lemma f64_leb_total (a b : f64) :
  f64_is_nan a = false → f64_is_nan b = false →
  f64_leb a b = true ∨ f64_leb b a = true.
Proof.
  destruct a as [x| | |], b as [y| | |]; try done; auto.
  intros _ _. rewrite !f64_leb_Fin.
  destruct (Qclt_le_dec x y); [left; by apply Qclt_le_weak | by right].
Qed.

(** What lies between two finite numbers is a finite number. *)
Lemma f64_between (a b : Qc) (e : f64) :
  f64_leb (Fin a) e = true → f64_leb e (Fin b) = true →
  ∃ z, e = Fin z ∧ (a ≤ z)%Qc ∧ (z ≤ b)%Qc.
Proof.
  destruct e as [z| | |]; try done. rewrite !f64_leb_Fin. by exists z.
Qed.

Lemma round_between (p q r a b : Qc) :
  (p ≤ q)%Qc → (q ≤ r)%Qc → round p = Fin a → round r = Fin b →
  ∃ z, round q = Fin z ∧ (a ≤ z)%Qc ∧ (z ≤ b)%Qc.
Proof.
  intros Hpq Hqr Hp Hr. apply f64_between.
  - rewrite <- Hp. by apply round_mono.
  - rewrite <- Hr. by apply round_mono.
Qed.

Lemma f64_min_not_nan (a b : f64) :
  f64_is_nan a = false → f64_is_nan b = false → f64_is_nan (f64_min a b) = false.
Proof. unfold f64_min. by destruct (f64_leb a b). Qed.

Lemma f64_max_not_nan (a b : f64) :
  f64_is_nan a = false → f64_is_nan b = false →
  f64_is_nan (f64_max_of a b) = false.
Proof. unfold f64_max_of. by destruct (f64_leb a b). Qed.

Lemma f64_min_le (a b : f64) :
  f64_is_nan a = false → f64_is_nan b = false →
  f64_leb (f64_min a b) a = true ∧ f64_leb (f64_min a b) b = true.
Proof.
  intros Ha Hb. unfold f64_min. destruct (f64_leb a b) eqn:E.
  - split; [by apply f64_leb_refl | done].
  - destruct (f64_leb_total a b Ha Hb) as [H|H]; [congruence|].
    split; [done | by apply f64_leb_refl].
Qed.

Lemma f64_max_ge (a b : f64) :
  f64_is_nan a = false → f64_is_nan b = false →
  f64_leb a (f64_max_of a b) = true ∧ f64_leb b (f64_max_of a b) = true.
Proof.
  intros Ha Hb. unfold f64_max_of. destruct (f64_leb a b) eqn:E.
  - split; [done | by apply f64_leb_refl].
  - destruct (f64_leb_total a b Ha Hb) as [H|H]; [congruence|].
    split; [by apply f64_leb_refl | done].
Qed.

Lemma fold_min64 (xs : list f64) (x : f64) :
  f64_is_nan x = false → Forall (λ e, f64_is_nan e = false) xs →
  fold_left f64_min xs x ∈ x :: xs ∧
  ∀ y, y ∈ x :: xs → f64_leb (fold_left f64_min xs x) y = true.
Proof.
  revert x. induction xs as [|a xs IH]; intros x Hx Hxs; simpl.
  - split; [left|]. intros y ->%list_elem_of_singleton. by apply f64_leb_refl.
  - apply Forall_cons in Hxs as [Ha Hxs].
    destruct (IH (f64_min x a) (f64_min_not_nan _ _ Hx Ha) Hxs) as [Hin Hle].
    destruct (f64_min_le x a Hx Ha) as [H1 H2]. split.
    + apply elem_of_cons in Hin as [->|Hin]; [|by do 2 right].
      unfold f64_min. destruct (f64_leb x a); [left | right; left].
    + intros y Hy. pose proof (Hle (f64_min x a) ltac:(left)) as H0.
      apply elem_of_cons in Hy as [->|Hy].
      { by eapply f64_leb_trans. }
      apply elem_of_cons in Hy as [->|Hy].
      { by eapply f64_leb_trans. }
      apply Hle. by right.
Qed.

Lemma fold_max64 (xs : list f64) (x : f64) :
  f64_is_nan x = false → Forall (λ e, f64_is_nan e = false) xs →
  fold_left f64_max_of xs x ∈ x :: xs ∧
  ∀ y, y ∈ x :: xs → f64_leb y (fold_left f64_max_of xs x) = true.
Proof.
  revert x. induction xs as [|a xs IH]; intros x Hx Hxs; simpl.
  - split; [left|]. intros y ->%list_elem_of_singleton. by apply f64_leb_refl.
  - apply Forall_cons in Hxs as [Ha Hxs].
    destruct (IH (f64_max_of x a) (f64_max_not_nan _ _ Hx Ha) Hxs) as [Hin Hle].
    destruct (f64_max_ge x a Hx Ha) as [H1 H2]. split.
    + apply elem_of_cons in Hin as [->|Hin]; [|by do 2 right].
      unfold f64_max_of. destruct (f64_leb x a); [right; left | left].
    + intros y Hy. pose proof (Hle (f64_max_of x a) ltac:(left)) as H0.
      apply elem_of_cons in Hy as [->|Hy].
      { by eapply f64_leb_trans. }
      apply elem_of_cons in Hy as [->|Hy].
      { by eapply f64_leb_trans. }
      apply Hle. by right.
Qed.

Lemma numbers_elem (l : list f64) (e : f64) :
  e ∈ numbers l ↔ e ∈ l ∧ f64_is_nan e = false.
Proof. unfold numbers. rewrite list_elem_of_filter. tauto. Qed.

Lemma numbers_not_nan (l : list f64) :
  Forall (λ e, f64_is_nan e = false) (numbers l).
Proof. apply Forall_forall. by intros e [_ ?]%numbers_elem. Qed.

(** A minimum that is a number is an entry of the column and is below
    every number of it. *)
Lemma col_min64_spec (l : list f64) (v : f64) :
  col_min64 l = v → f64_is_nan v = false →
  v ∈ l ∧ ∀ e, e ∈ l → f64_is_nan e = false → f64_leb v e = true.
Proof.
  unfold col_min64. pose proof (numbers_not_nan l) as Hn.
  destruct (numbers l) as [|x xs] eqn:E; [by intros <-|].
  apply Forall_cons in Hn as [Hx Hxs]. intros <- _.
  destruct (fold_min64 xs x Hx Hxs) as [Hin Hle]. split.
  - rewrite <- E in Hin. by apply numbers_elem in Hin as [? _].
  - intros e He Hnan. apply Hle. rewrite <- E. by apply numbers_elem.
Qed.

Lemma col_max64_spec (l : list f64) (v : f64) :
  col_max64 l = v → f64_is_nan v = false →
  v ∈ l ∧ ∀ e, e ∈ l → f64_is_nan e = false → f64_leb e v = true.
Proof.
  unfold col_max64. pose proof (numbers_not_nan l) as Hn.
  destruct (numbers l) as [|x xs] eqn:E; [by intros <-|].
  apply Forall_cons in Hn as [Hx Hxs]. intros <- _.
  destruct (fold_max64 xs x Hx Hxs) as [Hin Hle]. split.
  - rewrite <- E in Hin. by apply numbers_elem in Hin as [? _].
  - intros e He Hnan. apply Hle. rewrite <- E. by apply numbers_elem.
Qed.

(** With a finite minimum and a finite maximum every entry is NaN or a
    finite number between the two. *)
Lemma finite_extremes (l : list f64) (m M : Qc) (e : f64) :
  col_min64 l = Fin m → col_max64 l = Fin M → e ∈ l →
  e = NaN ∨ ∃ x, e = Fin x ∧ (m ≤ x)%Qc ∧ (x ≤ M)%Qc.
Proof.
  intros Hmin Hmax He. destruct (f64_is_nan e) eqn:Hnan.
  { left. by destruct e. }
  right. apply f64_between.
  - by apply (col_min64_spec l (Fin m) Hmin eq_refl).
  - by apply (col_max64_spec l (Fin M) Hmax eq_refl).
Qed.

End Float64Facts.

Section Float64Normalisation.
Context {rnd : Rounding}.

(** One entry between the extremes, scaled with a finite positive range:
    its difference to the minimum is a finite number between 0 and the
    range, and the quotient by the range is a finite number in [0,1]. *)
Lemma scaled_entry (m M b x : Qc) :
  round (M - m)%Qc = Fin b → (0 < b)%Qc → (m ≤ x)%Qc → (x ≤ M)%Qc →
  ∃ a y,
    f64_sub (Fin x) (Fin m) = Fin a ∧ (0 ≤ a)%Qc ∧ (a ≤ b)%Qc ∧
    f64_div (Fin a) (Fin b) = Fin y ∧ round (a / b)%Qc = Fin y ∧
    (0 ≤ y)%Qc ∧ (y ≤ 1)%Qc.
Proof.
  intros Hb Hpos Hmx HxM.
  destruct (round_between 0 (x - m) (M - m) 0 b) as (a & Ha & Ha0 & Hab);
    [by apply Qc_sub_nonneg | by apply Qc_sub_mono | apply round_zero | done |].
  destruct (Qc_div_unit a b Ha0 Hab Hpos) as [Hq0 Hq1].
  destruct (round_between 0 (a / b) 1 0 1) as (y & Hy & Hy0 & Hy1);
    [done | done | apply round_zero | apply round_one |].
  exists a, y.
  assert (b ≠ 0%Qc) as Hne by (intros ->; by apply Qclt_not_eq in Hpos).
  split; [done|]. split; [done|]. split; [done|]. split; [|done].
  simpl. by rewrite decide_False.
Qed.

Lemma normalize_float64_scaled (l : list f64) (m M b : Qc) :
  col_min64 l = Fin m → col_max64 l = Fin M →
  f64_sub (Fin M) (Fin m) = Fin b → b ≠ 0%Qc →
  normalize_float64 l = map (λ x, f64_div (f64_sub x (Fin m)) (Fin b)) l.
Proof.
  intros Hmin Hmax Hb Hne. unfold normalize_float64.
  rewrite Hmin, Hmax, Hb. simpl. by rewrite bool_decide_eq_false_2.
Qed.

Lemma normalize_float64_zero_range (l : list f64) (m M : Qc) :
  col_min64 l = Fin m → col_max64 l = Fin M →
  f64_sub (Fin M) (Fin m) = Fin 0%Qc →
  normalize_float64 l = l.
Proof.
  intros Hmin Hmax Hb. unfold normalize_float64. by rewrite Hmin, Hmax, Hb.
Qed.

(** C5, amended: for a column whose minimum and maximum are finite, with
    maximum strictly greater than minimum and a computed range max - min
    that is a finite positive float64 (it has not overflowed), the
    normalisation replaces every entry x by (x - min) / (max - min) in
    float64 arithmetic; every number of the column is finite and becomes a
    number in [0,1], which is 0 for the minimum and 1 for the maximum; NaN
    stays NaN; and the minimum and the maximum are entries of the column. *)
Theorem min_max_normalisation_f64 (l : list f64) (m M b : Qc) :
  col_min64 l = Fin m → col_max64 l = Fin M → (m < M)%Qc →
  f64_sub (Fin M) (Fin m) = Fin b → (0 < b)%Qc →
  normalize_float64 l =
    map (λ x, f64_div (f64_sub x (Fin m)) (f64_sub (Fin M) (Fin m))) l ∧
  (∀ j e, l !! j = Some e →
     e = NaN ∨ ∃ x, e = Fin x ∧ (m ≤ x)%Qc ∧ (x ≤ M)%Qc) ∧
  (∀ j x, l !! j = Some (Fin x) →
     ∃ y, normalize_float64 l !! j = Some (Fin y) ∧
          (0 ≤ y)%Qc ∧ (y ≤ 1)%Qc ∧
          (x = m → y = 0%Qc) ∧ (x = M → y = 1%Qc)) ∧
  (∀ j, l !! j = Some NaN → normalize_float64 l !! j = Some NaN) ∧
  Fin m ∈ l ∧ Fin M ∈ l.
Proof.
  intros Hmin Hmax Hlt Hb Hpos.
  assert (b ≠ 0%Qc) as Hne by (intros ->; by apply Qclt_not_eq in Hpos).
  pose proof (normalize_float64_scaled l m M b Hmin Hmax Hb Hne) as Hl.
  assert (∀ j e, l !! j = Some e →
            e = NaN ∨ ∃ x, e = Fin x ∧ (m ≤ x)%Qc ∧ (x ≤ M)%Qc) as Hfin.
  { intros j e Hj. apply (finite_extremes l m M e Hmin Hmax).
    apply list_elem_of_lookup. eauto. }
  split; [by rewrite Hb|]. split; [done|]. split; [|split; [|split]].
  - intros j x Hj.
    destruct (Hfin j _ Hj) as [?|(x0 & [= <-] & Hmx & HxM)]; [done|].
    simpl in Hb.
    destruct (scaled_entry m M b x Hb Hpos Hmx HxM)
      as (a & y & Ha & Ha0 & Hab & Hdiv & Hy & Hy0 & Hy1).
    exists y. rewrite Hl, list_lookup_fmap, Hj. simpl.
    change (round (x - m)%Qc) with (f64_sub (Fin x) (Fin m)).
    rewrite Ha, Hdiv. split; [done|]. split; [done|]. split; [done|].
    split; intros ->.
    + simpl in Ha. rewrite Qc_sub_same, round_zero in Ha. injection Ha as <-.
      rewrite Qc_div_zero, round_zero in Hy by done. by injection Hy as <-.
    + simpl in Ha. rewrite Hb in Ha. injection Ha as <-.
      rewrite Qc_div_same, round_one in Hy by done. by injection Hy as <-.
  - intros j Hj. by rewrite Hl, list_lookup_fmap, Hj.
  - by apply (col_min64_spec l (Fin m) Hmin eq_refl).
  - by apply (col_max64_spec l (Fin M) Hmax eq_refl).
Qed.

Lemma normalize_float64_length (l : list f64) :
  length (normalize_float64 l) = length l.
Proof.
  unfold normalize_float64. destruct (f64_ne_zero _); [apply length_map | done].
Qed.

(** X8: the normalisation of a column keeps its length, and an entry that
    is NaN stays NaN at its place. *)
Theorem normalize_float64_keeps_nan (l : list f64) :
  length (normalize_float64 l) = length l ∧
  ∀ j, l !! j = Some NaN → normalize_float64 l !! j = Some NaN.
Proof.
  split; [apply normalize_float64_length|].
  intros j Hj. unfold normalize_float64.
  destruct (f64_ne_zero _); [|done]. by rewrite list_lookup_fmap, Hj.
Qed.

(** X9: when the minimum and the maximum of a column are finite and the
    computed range max - min is finite, the normalisation keeps the order
    of its numbers: if x is at most y, the image of x is a number at most
    the image of y. *)
Theorem normalize_float64_monotone (l : list f64) (m M b : Qc)
    (i j : nat) (x y : Qc) :
  col_min64 l = Fin m → col_max64 l = Fin M →
  f64_sub (Fin M) (Fin m) = Fin b →
  l !! i = Some (Fin x) → l !! j = Some (Fin y) → (x ≤ y)%Qc →
  ∃ x' y',
    normalize_float64 l !! i = Some (Fin x') ∧
    normalize_float64 l !! j = Some (Fin y') ∧
    (x' ≤ y')%Qc.
Proof.
  intros Hmin Hmax Hb Hi Hj Hxy.
  destruct (decide (b = 0%Qc)) as [->|Hne].
  { rewrite (normalize_float64_zero_range l m M Hmin Hmax Hb). by exists x, y. }
  assert (Fin x ∈ l) as Hx by (apply list_elem_of_lookup; eauto).
  assert (Fin y ∈ l) as Hy by (apply list_elem_of_lookup; eauto).
  destruct (finite_extremes l m M _ Hmin Hmax Hx)
    as [?|(x0 & [= <-] & Hmx & HxM)]; [done|].
  destruct (finite_extremes l m M _ Hmin Hmax Hy)
    as [?|(y0 & [= <-] & Hmy & HyM)]; [done|].
  simpl in Hb.
  assert (0 < b)%Qc as Hpos.
  { destruct (round_between 0 (M - m) (M - m) 0 b) as (z & Hz & Hz0 & _);
      [apply Qc_sub_nonneg; by etrans | done | apply round_zero | done |].
    rewrite Hb in Hz. injection Hz as <-.
    apply Qcle_lt_or_eq in Hz0 as [?|?]; [done | congruence]. }
  destruct (scaled_entry m M b x Hb Hpos Hmx HxM)
    as (a1 & x' & Ha1 & _ & _ & Hd1 & Hr1 & _).
  destruct (scaled_entry m M b y Hb Hpos Hmy HyM)
    as (a2 & y' & Ha2 & _ & _ & Hd2 & Hr2 & _).
  exists x', y'.
  rewrite (normalize_float64_scaled l m M b Hmin Hmax Hb Hne).
  rewrite !list_lookup_fmap, Hi, Hj. simpl.
  change (round (x - m)%Qc) with (f64_sub (Fin x) (Fin m)).
  change (round (y - m)%Qc) with (f64_sub (Fin y) (Fin m)).
  rewrite Ha1, Ha2, Hd1, Hd2. split; [done|]. split; [done|].
  apply f64_leb_Fin. rewrite <- Hr1, <- Hr2. apply round_mono.
  apply Qc_div_mono; [|done]. apply f64_leb_Fin.
  rewrite <- Ha1, <- Ha2. simpl. by apply round_mono, Qc_sub_mono.
Qed.

(** A column of equal finite numbers has range 0 and is left unchanged,
    whatever the rounding: the float64 counterpart of the zero-range case. *)
Lemma equal_finite_extremes_unchanged (l : list f64) (m : Qc) :
  col_min64 l = Fin m → col_max64 l = Fin m → normalize_float64 l = l.
Proof.
  intros Hmin Hmax. apply (normalize_float64_zero_range l m m Hmin Hmax).
  simpl. by rewrite Qc_sub_same, round_zero.
Qed.

(** A column of equal infinities has maximum equal to minimum, but its
    range is NaN, the guard holds and every entry becomes NaN. *)
Lemma infinite_column_becomes_nan :
  col_min64 [PInf; PInf] = PInf ∧ col_max64 [PInf; PInf] = PInf ∧
  normalize_float64 [PInf; PInf] = [NaN; NaN].
Proof. done. Qed.

End Float64Normalisation.

(** C5, as stated, fails: the column -2^1023, 0, 2^1023 has a finite
    maximum strictly greater than its finite minimum, but their difference
    overflows to infinity; the minimum and 0 both become 0 and the maximum
    becomes NaN, neither 1 nor a number in [0,1]. *)
Lemma range_overflow_gives_nan :
  let l := [Fin (- f64_huge)%Qc; Fin 0%Qc; Fin f64_huge] in
  col_min64 l = Fin (- f64_huge)%Qc ∧
  col_max64 l = Fin f64_huge ∧
  (- f64_huge < f64_huge)%Qc ∧
  @f64_sub exact_rounding (Fin f64_huge) (Fin (- f64_huge)%Qc) = PInf ∧
  @normalize_float64 exact_rounding l = [Fin 0%Qc; Fin 0%Qc; NaN] ∧
  @normalize_float64 exact_rounding l !! 2%nat ≠ Some (Fin 1%Qc).
Proof.
  cbn zeta. split; [by vm_compute|]. split; [by vm_compute|].
  split; [by vm_compute|]. split; [by vm_compute|].
  assert (@normalize_float64 exact_rounding
            [Fin (- f64_huge)%Qc; Fin 0%Qc; Fin f64_huge]
          = [Fin 0%Qc; Fin 0%Qc; NaN]) as -> by (by vm_compute).
  by split.
Qed.

Lemma min_max_normalisation_f64_witness :
  let l := [f64_of_Z 50; NaN; f64_of_Z 60; f64_of_Z 55] in
  @normalize_float64 exact_rounding l !! 1%nat = Some NaN ∧
  ∃ y, @normalize_float64 exact_rounding l !! 3%nat = Some (Fin y) ∧
       (0 ≤ y)%Qc ∧ (y ≤ 1)%Qc.
Proof.
  intros l.
  destruct (@min_max_normalisation_f64 exact_rounding l
              (Q2Qc (inject_Z 50)) (Q2Qc (inject_Z 60))
              (Q2Qc (inject_Z 60) - Q2Qc (inject_Z 50))%Qc)
    as (_ & _ & Hnum & Hnan & _);
    [by vm_compute | by vm_compute | by vm_compute | by vm_compute
    | by vm_compute |].
  split; [by apply Hnan|].
  destruct (Hnum 3%nat (Q2Qc (inject_Z 55)) eq_refl) as (y & Hy & Hy0 & Hy1 & _).
  by exists y.
Defined.

Lemma normalize_float64_monotone_witness :
  let l := [f64_of_Z 60; NaN; f64_of_Z 50; f64_of_Z 55] in
  ∃ x' y',
    @normalize_float64 exact_rounding l !! 2%nat = Some (Fin x') ∧
    @normalize_float64 exact_rounding l !! 3%nat = Some (Fin y') ∧
    (x' ≤ y')%Qc.
Proof.
  intros l.
  apply (@normalize_float64_monotone exact_rounding l
           (Q2Qc (inject_Z 50)) (Q2Qc (inject_Z 60))
           (Q2Qc (inject_Z 60) - Q2Qc (inject_Z 50))%Qc
           2 3 (Q2Qc (inject_Z 50)) (Q2Qc (inject_Z 55)));
    by vm_compute.
Defined.
